(** * VecoForTokenClassification: label wiring of the checkpoint factory

    Shallow embedding of
    [modelscope/models/nlp/veco/token_classification.py].

    The class is glue code over three external libraries (transformers,
    modelscope's base classes and hub utilities).  Every external entry point
    is an [event]; a run threads the state of the outside world through a
    handler that answers events, and records the events in a trace.  What the
    file itself computes (keyword dictionaries, the inversion of the label
    mapping, the repackaging of the output) is modelled as executable code
    over a small universe of Python values. *)

From Stdlib Require Import List ZArith String Bool Lia.
Import ListNotations.
Local Open Scope string_scope.
Local Open Scope Z_scope.
Local Open Scope list_scope.

Set Implicit Arguments.
Set Warnings "-register-all".

(** ** Python values *)

Module Py.

(** The fragment of Python's value universe that reaches this file: scalars,
    dictionaries (insertion ordered), plain instances carrying an attribute
    table (configurations, output containers) and opaque references
    (tensors, model instances). *)
Inductive value : Type :=
| VNone
| VBool (b : bool)
| VInt (n : Z)
| VStr (s : string)
| VDict (items : list (value * value))
| VObj (class_name : string) (fields : list (string * value))
| VRef (addr : nat).

Definition is_none (v : value) : bool :=
  match v with VNone => true | _ => false end.

(** Exceptions: the two builtin ones this file can trigger itself, and
    whatever an external library raises. *)
Inductive exn : Type :=
| AttributeError (attr : string)
| TypeError (msg : string)
| Raised (payload : value).

Inductive result (A : Type) : Type :=
| Ok (a : A)
| Err (e : exn).
Arguments Ok {A} a.
Arguments Err {A} e.

Definition rbind {A B} (r : result A) (k : A -> result B) : result B :=
  match r with Ok a => k a | Err e => Err e end.

(** *** Hashing and key equality

    [hash_key v] is the class of [v] under Python's [==] restricted to
    hashable values: [True == 1] and [False == 0], references compare by
    identity, dictionaries and instances that define [__eq__] (dataclasses,
    configurations) are unhashable. *)
Inductive hkey : Type :=
| HNone
| HInt (n : Z)
| HStr (s : string)
| HRef (addr : nat).

Definition hkey_eq_dec (a b : hkey) : {a = b} + {a <> b}.
Proof.
  decide equality;
    [apply Z.eq_dec | apply string_dec | apply Nat.eq_dec].
Defined.

Definition hash_key (v : value) : option hkey :=
  match v with
  | VNone => Some HNone
  | VBool b => Some (HInt (if b then 1 else 0))
  | VInt n => Some (HInt n)
  | VStr s => Some (HStr s)
  | VRef a => Some (HRef a)
  | VDict _ | VObj _ _ => None
  end.

Definition hashable (v : value) : Prop := hash_key v <> None.

Definition hashableb (v : value) : bool :=
  match hash_key v with Some _ => true | None => false end.

Definition opt_hkey_eq_dec (a b : option hkey) : {a = b} + {a <> b}.
Proof. decide equality; apply hkey_eq_dec. Defined.

(** *** Insertion-ordered association tables

    One implementation serves keyword dictionaries (keys are strings) and
    Python dictionaries (keys are values compared through [hash_key]):
    [canon] sends a key to the class that decides equality. *)
Section Table.
Context {K V C : Type}.
Variable canon : K -> C.
Variable C_eq_dec : forall a b : C, {a = b} + {a <> b}.

Definition table := list (K * V).

(** [d.get(k)] / [d[k]]: the first (and, in a dictionary, only) entry whose
    key equals [k]. *)
Fixpoint lookup (d : table) (c : C) : option V :=
  match d with
  | [] => None
  | (k, v) :: rest => if C_eq_dec (canon k) c then Some v else lookup rest c
  end.

(** [d[k] = v]: an existing key keeps its position and its key object and
    takes the new value; a new key goes to the end. *)
Fixpoint store (d : table) (k : K) (v : V) : table :=
  match d with
  | [] => [(k, v)]
  | (k', v') :: rest =>
      if C_eq_dec (canon k') (canon k) then (k', v) :: rest
      else (k', v') :: store rest k v
  end.

(** The table left by [d.pop(k, default)]. *)
Fixpoint remove (d : table) (c : C) : table :=
  match d with
  | [] => []
  | (k, v) :: rest =>
      if C_eq_dec (canon k) c then rest else (k, v) :: remove rest c
  end.

Definition ckeys (d : table) : list C := map (fun kv => canon (fst kv)) d.
End Table.

(** Keyword dictionaries: [**kwargs]. *)
Definition kwdict := list (string * value).
Definition kw_get (d : kwdict) (k : string) : option value :=
  lookup (fun s : string => s) string_dec d k.
Definition kw_set (d : kwdict) (k : string) (v : value) : kwdict :=
  store (fun s : string => s) string_dec d k v.
Definition kw_remove (d : kwdict) (k : string) : kwdict :=
  remove (fun s : string => s) string_dec d k.

(** [kwargs.get(k, default)]: the default is an already evaluated value. *)
Definition kwargs_get (d : kwdict) (k : string) (default : value) : value :=
  match kw_get d k with Some v => v | None => default end.

(** [kwargs.pop(k, default)]: the value and the dictionary left behind. *)
Definition kwargs_pop (d : kwdict) (k : string) (default : value)
  : value * kwdict :=
  (kwargs_get d k default, kw_remove d k).

(** Python dictionaries. *)
Definition dict := list (value * value).
Definition dict_get (d : dict) (c : option hkey) : option value :=
  lookup hash_key opt_hkey_eq_dec d c.
Definition dict_keys (d : dict) : list (option hkey) := ckeys hash_key d.
Definition dict_values (d : dict) : list (option hkey) :=
  map (fun kv => hash_key (snd kv)) d.

(** [d[k] = v] on a Python dictionary: an unhashable key raises. *)
Definition dict_setitem (d : dict) (k v : value) : result dict :=
  match hash_key k with
  | Some _ => Ok (store hash_key opt_hkey_eq_dec d k v)
  | None => Err (TypeError "unhashable type")
  end.

(** [x.items()]: only dictionaries have it. *)
Definition items (x : value) : result (list (value * value)) :=
  match x with
  | VDict d => Ok d
  | _ => Err (AttributeError "items")
  end.

(** [len(x)]. *)
Definition len (x : value) : result value :=
  match x with
  | VDict d => Ok (VInt (Z.of_nat (List.length d)))
  | VStr s => Ok (VInt (Z.of_nat (String.length s)))
  | _ => Err (TypeError "object has no len()")
  end.

(** [x.name]: instances answer from their attribute table. *)
Definition getattr (x : value) (name : string) : result value :=
  match x with
  | VObj _ fields =>
      match kw_get fields name with
      | Some v => Ok v
      | None => Err (AttributeError name)
      end
  | _ => Err (AttributeError name)
  end.

(** The comprehension [{b: a for a, b in pairs}], filling [acc] from left to
    right. *)
Fixpoint swap_into (pairs : list (value * value)) (acc : dict) : result dict :=
  match pairs with
  | [] => Ok acc
  | (a, b) :: rest => rbind (dict_setitem acc b a) (swap_into rest)
  end.

(** [{b: a for a, b in x.items()}] *)
Definition invert (x : value) : result value :=
  rbind (items x) (fun pairs =>
  rbind (swap_into pairs []) (fun d => Ok (VDict d))).

(** A list of pairs is a dictionary when its keys are hashable and pairwise
    different. *)
Definition is_dict (d : dict) : Prop :=
  Forall (fun kv => hashable (fst kv)) d /\ NoDup (dict_keys d).

End Py.

(** ** External collaborators *)

Module Ext.
Import Py.

(** One constructor per call that leaves the file, with the arguments the
    call site passes. *)
Inductive event : Type :=
| parse_label_mapping (model_dir : value)
| VecoConfig (kwargs : kwdict)
| object_new
| TorchModel_init (self model_dir : value) (kwargs : kwdict)
| RobertaForTokenClassification_init (self config : value)
| RobertaForTokenClassification_forward
    (self : value) (args : list value) (kwargs : kwdict)
| from_pretrained (pretrained_model_name_or_path : value) (kwargs : kwdict).

Definition is_parse (e : event) : bool :=
  match e with parse_label_mapping _ => true | _ => false end.

Definition is_from_pretrained (e : event) : bool :=
  match e with from_pretrained _ _ => true | _ => false end.

Section Run.
(** The state owned by the external libraries (file system, registry,
    parameters of the network). *)
Variable World : Type.

(** How the outside answers a call: a new world and a value or an
    exception. *)
Definition handler := event -> World -> World * result value.

Record state : Type := State { world : World; trace : list event }.

Definition M (A : Type) : Type := state -> state * result A.

Definition ret {A} (a : A) : M A := fun st => (st, Ok a).

Definition bind {A B} (m : M A) (k : A -> M B) : M B :=
  fun st =>
    match m st with
    | (st', Ok a) => k a st'
    | (st', Err e) => (st', Err e)
    end.

(** A computation of the file itself: no access to the world. *)
Definition lift {A} (r : result A) : M A := fun st => (st, r).

Definition call (h : handler) (e : event) : M value :=
  fun st =>
    let (w', r) := h e (world st) in
    (State w' (trace st ++ [e]), r).
End Run.

Arguments State {World} world trace.
Arguments ret {World A} a.
Arguments bind {World A B} m k.
Arguments lift {World A} r.
Arguments call {World} h e.

End Ext.

Declare Scope veco_scope.
Notation "x <- m ;; k" := (Ext.bind m (fun x => k))
  (at level 61, m at next level, right associativity) : veco_scope.
Notation "m ;;; k" := (Ext.bind m (fun _ => k))
  (at level 61, right associativity) : veco_scope.

(** ** The class *)

Module VecoForTokenClassification.
Import Py Ext.
Local Open Scope veco_scope.

(** Modelled from the spec: the output container
    [modelscope.outputs.AttentionTokenClassificationModelOutput], whose
    declaration is outside this file; the spec describes it as a fixed-shape
    result aggregating loss, logits, hidden states and attentions, built here
    from exactly these four keyword arguments. *)
Definition AttentionTokenClassificationModelOutput
  (loss logits hidden_states attentions : value) : value :=
  VObj "AttentionTokenClassificationModelOutput"
    [("loss", loss); ("logits", logits);
     ("hidden_states", hidden_states); ("attentions", attentions)].

Section Methods.
Variable World : Type.
Variable h : handler World.

(** [def __init__(self, config, **kwargs)] *)
Definition __init__ (self config : value) (kwargs : kwdict) : M World value :=
  name_or_path <- lift (getattr config "name_or_path") ;;
  call h (TorchModel_init self name_or_path kwargs) ;;;
  call h (RobertaForTokenClassification_init self config) ;;;
  ret VNone.

(** [cls(config)]: allocate the instance, run [__init__] on it. *)
Definition cls (config : value) : M World value :=
  self <- call h object_new ;;
  __init__ self config [] ;;;
  ret self.

(** [def forward(self, *args, **kwargs)] *)
Definition forward (self : value) (args : list value) (kwargs : kwdict)
  : M World value :=
  let kwargs := kw_set kwargs "return_dict" (VBool true) in
  outputs <- call h (RobertaForTokenClassification_forward self args kwargs) ;;
  loss <- lift (getattr outputs "loss") ;;
  logits <- lift (getattr outputs "logits") ;;
  hidden_states <- lift (getattr outputs "hidden_states") ;;
  attentions <- lift (getattr outputs "attentions") ;;
  ret (AttentionTokenClassificationModelOutput
         loss logits hidden_states attentions).

(** [def _instantiate(cls, **kwargs)].  The second argument of
    [kwargs.get] is evaluated before the lookup, as Python does. *)
Definition _instantiate (kwargs : kwdict) : M World value :=
  let '(model_dir, kwargs) := kwargs_pop kwargs "model_dir" VNone in
  if is_none model_dir then
    config <- call h (VecoConfig kwargs) ;;
    cls config
  else
    let model_kwargs : kwdict := [] in
    parsed <- call h (parse_label_mapping model_dir) ;;
    let label2id := kwargs_get kwargs "label2id" parsed in
    inverted <- lift (if is_none label2id then Ok VNone
                      else invert label2id) ;;
    let id2label := kwargs_get kwargs "id2label" inverted in
    label2id <- lift (if negb (is_none id2label) && is_none label2id
                      then invert id2label else Ok label2id) ;;
    counted <- lift (if is_none label2id then Ok VNone else len label2id) ;;
    let num_labels := kwargs_get kwargs "num_labels" counted in
    let model_kwargs :=
      if negb (is_none num_labels)
      then kw_set model_kwargs "num_labels" num_labels else model_kwargs in
    let model_kwargs :=
      if negb (is_none label2id)
      then kw_set model_kwargs "label2id" label2id else model_kwargs in
    let model_kwargs :=
      if negb (is_none id2label)
      then kw_set model_kwargs "id2label" id2label else model_kwargs in
    call h (from_pretrained model_dir model_kwargs).
End Methods.

End VecoForTokenClassification.

(** ** What the spec calls things *)

Module Spec.
Import Py.

Definition swap (p : value * value) : value * value := (snd p, fst p).

(** "Exact inverse": the pairs of one dictionary are the pairs of the other,
    turned around. *)
Definition exact_inverse (d d' : dict) : Prop :=
  forall a b, In (a, b) d <-> In (b, a) d'.

(** "Mapping each id back to its label": [d'] is a dictionary over exactly
    the ids of [d], and the label it gives for an id carries that id in
    [d].  (Read with the roles of labels and ids exchanged when [d] is an
    [id2label].) *)
Definition maps_back (d d' : dict) : Prop :=
  is_dict d' /\
  (forall c, In c (dict_keys d') <-> In c (dict_values d)) /\
  (forall c label, dict_get d' c = Some label ->
     exists id, In (label, id) d /\ hash_key id = c).

(** "The last label for each id in iteration order". *)
Fixpoint last_label (d : dict) (c : option hkey) : option value :=
  match d with
  | [] => None
  | (label, id) :: rest =>
      match last_label rest c with
      | Some l => Some l
      | None => if opt_hkey_eq_dec (hash_key id) c then Some label else None
      end
  end.

(** The number of distinct id values of a label mapping. *)
Definition distinct_ids (d : dict) : nat :=
  List.length (nodup opt_hkey_eq_dec (dict_values d)).

Definition values_hashable (d : dict) : Prop :=
  Forall (fun kv => hashable (snd kv)) d.

End Spec.

(** ** Auxiliary definitions for the proofs *)

Module Aux.
Import Py Ext.

(** The keyword set that [_instantiate] hands to the loader, as a function of
    what the parser returned: the lines between the parse and the load, which
    touch no external state.  [instantiate_with_dir] relates it to the
    method. *)
Definition resolve_labels (kwargs : kwdict) (parsed : value) : result kwdict :=
  let label2id := kwargs_get kwargs "label2id" parsed in
  rbind (if is_none label2id then Ok VNone else invert label2id)
  (fun inverted =>
  let id2label := kwargs_get kwargs "id2label" inverted in
  rbind (if negb (is_none id2label) && is_none label2id
         then invert id2label else Ok label2id)
  (fun label2id =>
  rbind (if is_none label2id then Ok VNone else len label2id)
  (fun counted =>
  let num_labels := kwargs_get kwargs "num_labels" counted in
  let model_kwargs : kwdict := [] in
  let model_kwargs :=
    if negb (is_none num_labels)
    then kw_set model_kwargs "num_labels" num_labels else model_kwargs in
  let model_kwargs :=
    if negb (is_none label2id)
    then kw_set model_kwargs "label2id" label2id else model_kwargs in
  let model_kwargs :=
    if negb (is_none id2label)
    then kw_set model_kwargs "id2label" id2label else model_kwargs in
  Ok model_kwargs))).

(** The state and the answer after one external call. *)
Definition after {World} (h : handler World) (e : event) (st : state World)
  : state World * result value :=
  (State (fst (h e (world st))) (trace st ++ [e]), snd (h e (world st))).

(** The events a run added to the trace. *)
Definition added {World} (st st' : state World) (es : list event) : Prop :=
  trace st' = trace st ++ es.

(** A small outside world for concrete runs: the world counts the calls
    answered so far, allocation returns a fresh reference, the parser finds
    [found], the network returns fixed tensors. *)
Definition sample_outputs : value :=
  VObj "TokenClassifierOutput"
    [("loss", VNone); ("logits", VRef 40);
     ("hidden_states", VNone); ("attentions", VRef 41)].

Definition sample_handler (found : value) : handler nat :=
  fun e w =>
    match e with
    | parse_label_mapping _ => (S w, Ok found)
    | VecoConfig kwargs =>
        (S w, Ok (VObj "VecoConfig" (kw_set kwargs "name_or_path" (VStr ""))))
    | object_new => (S w, Ok (VRef w))
    | TorchModel_init _ _ _ => (S w, Ok VNone)
    | RobertaForTokenClassification_init _ _ => (S w, Ok VNone)
    | RobertaForTokenClassification_forward _ _ _ => (S w, Ok sample_outputs)
    | from_pretrained _ _ => (S w, Ok (VRef w))
    end.

(** The same world, except that the calls selected by [fails] raise. *)
Definition failing_handler (fails : event -> bool) (found : value)
  : handler nat :=
  fun e w =>
    if fails e then (S w, Err (Raised (VStr "OSError")))
    else sample_handler found e w.

Definition start : state nat := State 0%nat [].

Definition ner_label2id : dict :=
  [(VStr "O", VInt 0); (VStr "B-PER", VInt 1); (VStr "I-PER", VInt 2)].

Definition ner_id2label : dict :=
  [(VInt 0, VStr "O"); (VInt 1, VStr "B-PER"); (VInt 2, VStr "I-PER")].

(** Two labels share id 0. *)
Definition clashing_label2id : dict :=
  [(VStr "O", VInt 0); (VStr "B-PER", VInt 1); (VStr "PAD", VInt 0)].

End Aux.

(** ** Vocabulary for the properties of whole runs *)

Module Runs.
Import Py Ext Aux.

(** What the three [if ... is not None] lines add for one key. *)
Definition entry (k : string) (v : value) : kwdict :=
  if is_none v then [] else [(k, v)].

(** The names the factory may hand to the loader. *)
Definition label_keys : list string := ["num_labels"; "label2id"; "id2label"].

(** The events a run of [m] appends to the trace contain [e]. *)
Definition makes_call {World A} (m : M World A) (st : state World) (e : event)
  : Prop :=
  exists es, trace (fst (m st)) = trace st ++ es /\ In e es.

(** A parent whose result lacks the hidden states and the attentions. *)
Definition partial_outputs : value :=
  VObj "TokenClassifierOutput" [("loss", VNone); ("logits", VRef 40)].

Definition partial_handler : handler nat :=
  fun e w =>
    match e with
    | RobertaForTokenClassification_forward _ _ _ => (S w, Ok partial_outputs)
    | _ => sample_handler VNone e w
    end.

Definition is_torch_init (e : event) : bool :=
  match e with TorchModel_init _ _ _ => true | _ => false end.

Definition is_task_init (e : event) : bool :=
  match e with RobertaForTokenClassification_init _ _ => true | _ => false end.

End Runs.

(** ** Facts about association tables *)

Section TableFacts.
Import Py.
Context {K V C : Type}.
Variable canon : K -> C.
Variable dec : forall a b : C, {a = b} + {a <> b}.

Local Abbreviation lookup := (lookup canon dec).
Local Abbreviation store := (store canon dec).
Local Abbreviation remove := (remove canon dec).
Local Abbreviation ckeys := (ckeys canon).

Lemma lookup_store (d : list (K * V)) k v c :
  lookup (store d k v) c = if dec (canon k) c then Some v else lookup d c.
Proof.
  induction d as [|[k' v'] rest IH]; simpl.
  - reflexivity.
  - destruct (dec (canon k') (canon k)) as [E|N]; simpl.
    + rewrite E. destruct (dec (canon k) c); reflexivity.
    + rewrite IH.
      destruct (dec (canon k') c) as [E1|N1];
        destruct (dec (canon k) c) as [E2|N2]; try reflexivity.
      congruence.
Qed.

Lemma store_fresh (d : list (K * V)) k v :
  ~ In (canon k) (ckeys d) -> store d k v = d ++ [(k, v)].
Proof.
  induction d as [|[k' v'] rest IH]; simpl; intros H.
  - reflexivity.
  - destruct (dec (canon k') (canon k)) as [E|N].
    + exfalso. apply H. left. exact E.
    + f_equal. apply IH. intros Hin. apply H. right. exact Hin.
Qed.

Lemma ckeys_store_old (d : list (K * V)) k v :
  In (canon k) (ckeys d) -> ckeys (store d k v) = ckeys d.
Proof.
  induction d as [|[k' v'] rest IH]; simpl; intros H.
  - contradiction.
  - destruct (dec (canon k') (canon k)) as [E|N]; simpl.
    + reflexivity.
    + f_equal. apply IH. destruct H as [H|H]; [contradiction | exact H].
Qed.

Lemma length_store_old (d : list (K * V)) k v :
  In (canon k) (ckeys d) -> List.length (store d k v) = List.length d.
Proof.
  intros H. apply (ckeys_store_old d k v) in H.
  apply (f_equal (@List.length C)) in H.
  unfold ckeys in H. rewrite !length_map in H. exact H.
Qed.

Lemma in_ckeys_store (d : list (K * V)) k v c :
  In c (ckeys (store d k v)) <-> c = canon k \/ In c (ckeys d).
Proof.
  destruct (in_dec dec (canon k) (ckeys d)) as [Hin|Hout].
  - rewrite ckeys_store_old by exact Hin.
    split; [auto | intros [->|H]; assumption].
  - rewrite store_fresh by exact Hout.
    unfold ckeys. rewrite map_app, in_app_iff. simpl.
    split.
    + intros [H|[H|[]]]; [right; exact H | left; symmetry; exact H].
    + intros [H|H]; [right; left; symmetry; exact H | left; exact H].
Qed.

Lemma NoDup_ckeys_store (d : list (K * V)) k v :
  NoDup (ckeys d) -> NoDup (ckeys (store d k v)).
Proof.
  intros ND.
  destruct (in_dec dec (canon k) (ckeys d)) as [Hin|Hout].
  - rewrite ckeys_store_old by exact Hin. exact ND.
  - rewrite store_fresh by exact Hout.
    unfold ckeys. rewrite map_app. simpl.
    apply NoDup_app; [exact ND | repeat constructor; intros [] | ].
    intros x Hx [<-|[]]. exact (Hout Hx).
Qed.

Lemma lookup_In (d : list (K * V)) c v :
  lookup d c = Some v -> exists k, In (k, v) d /\ canon k = c.
Proof.
  induction d as [|[k' v'] rest IH]; simpl; intros H.
  - discriminate.
  - destruct (dec (canon k') c) as [E|N].
    + injection H as <-. exists k'. split; [left; reflexivity | exact E].
    + destruct (IH H) as (k & Hin & Hk). exists k. split; [right|]; assumption.
Qed.

Lemma In_lookup (d : list (K * V)) k v :
  NoDup (ckeys d) -> In (k, v) d -> lookup d (canon k) = Some v.
Proof.
  induction d as [|[k' v'] rest IH]; simpl; intros ND Hin.
  - contradiction.
  - inversion ND as [|x l Hnot ND']; subst.
    destruct Hin as [E|Hin].
    + injection E as -> ->. destruct (dec (canon k) (canon k)); congruence.
    + destruct (dec (canon k') (canon k)) as [E|N].
      * exfalso. apply Hnot. rewrite E.
        apply (in_map (fun kv => canon (fst kv)) rest (k, v) Hin).
      * apply IH; assumption.
Qed.

Lemma lookup_None (d : list (K * V)) c :
  lookup d c = None <-> ~ In c (ckeys d).
Proof.
  induction d as [|[k' v'] rest IH]; simpl.
  - split; [intros _ [] | reflexivity].
  - destruct (dec (canon k') c) as [E|N].
    + split; [discriminate | intros H; exfalso; apply H; left; exact E].
    + rewrite IH. split.
      * intros H [E|Hin]; [exact (N E) | exact (H Hin)].
      * intros H Hin. apply H. right. exact Hin.
Qed.

Lemma lookup_remove_other (d : list (K * V)) c c' :
  c <> c' -> lookup (remove d c) c' = lookup d c'.
Proof.
  intros Hne. induction d as [|[k' v'] rest IH]; simpl.
  - reflexivity.
  - destruct (dec (canon k') c) as [E|N]; simpl.
    + destruct (dec (canon k') c') as [E'|N']; [congruence | reflexivity].
    + rewrite IH. reflexivity.
Qed.

Lemma lookup_remove_same (d : list (K * V)) c :
  NoDup (ckeys d) -> lookup (remove d c) c = None.
Proof.
  induction d as [|[k' v'] rest IH]; simpl; intros ND.
  - reflexivity.
  - inversion ND as [|x l Hnot ND']; subst.
    destruct (dec (canon k') c) as [E|N]; simpl.
    + apply lookup_None. rewrite <- E. exact Hnot.
    + destruct (dec (canon k') c); [contradiction | apply IH; exact ND'].
Qed.
End TableFacts.

(** ** Facts about the inversion of a dictionary *)

Section InvertFacts.
Import Py Spec.

Lemma store_keys_hashable (d : dict) k v :
  Forall (fun kv => hashable (fst kv)) d -> hashable k ->
  Forall (fun kv => hashable (fst kv))
         (store hash_key opt_hkey_eq_dec d k v).
Proof.
  intros Hd Hk. induction Hd as [|[k' v'] rest Hk' Hrest IH]; simpl.
  - constructor; [exact Hk | constructor].
  - destruct (opt_hkey_eq_dec (hash_key k') (hash_key k)).
    + constructor; [exact Hk' | exact Hrest].
    + constructor; [exact Hk' | exact IH].
Qed.

Lemma setitem_hashable (acc : dict) k v :
  hashable k ->
  dict_setitem acc k v = Ok (store hash_key opt_hkey_eq_dec acc k v).
Proof.
  unfold dict_setitem, hashable. destruct (hash_key k); congruence.
Qed.

Lemma setitem_inv (acc acc' : dict) k v :
  dict_setitem acc k v = Ok acc' ->
  hashable k /\ acc' = store hash_key opt_hkey_eq_dec acc k v.
Proof.
  unfold dict_setitem, hashable. destruct (hash_key k); intros H.
  - injection H as <-. split; [discriminate | reflexivity].
  - discriminate.
Qed.

(** The comprehension succeeds on hashable values. *)
Lemma swap_into_total (pairs : dict) :
  values_hashable pairs -> forall acc, exists d', swap_into pairs acc = Ok d'.
Proof.
  induction 1 as [|[a b] rest Hb Hrest IH]; intros acc; simpl.
  - exists acc. reflexivity.
  - rewrite setitem_hashable by exact Hb. simpl. apply IH.
Qed.

Lemma swap_into_lookup (pairs : dict) : forall acc d' c,
  swap_into pairs acc = Ok d' ->
  dict_get d' c =
    match last_label pairs c with
    | Some l => Some l
    | None => dict_get acc c
    end.
Proof.
  induction pairs as [|[a b] rest IH]; intros acc d' c H; simpl in *.
  - injection H as <-. reflexivity.
  - destruct (dict_setitem acc b a) as [acc'|] eqn:E; simpl in H;
      [|discriminate].
    apply setitem_inv in E. destruct E as [_ ->].
    rewrite (IH _ _ c H). unfold dict_get. rewrite lookup_store.
    destruct (last_label rest c); [reflexivity|].
    destruct (opt_hkey_eq_dec (hash_key b) c); reflexivity.
Qed.

Lemma swap_into_keys (pairs : dict) : forall acc d' c,
  swap_into pairs acc = Ok d' ->
  (In c (dict_keys d') <-> In c (dict_keys acc) \/ In c (dict_values pairs)).
Proof.
  induction pairs as [|[a b] rest IH]; intros acc d' c H; simpl in *.
  - injection H as <-. tauto.
  - destruct (dict_setitem acc b a) as [acc'|] eqn:E; simpl in H;
      [|discriminate].
    apply setitem_inv in E. destruct E as [_ ->].
    rewrite (IH _ _ c H). unfold dict_keys. rewrite in_ckeys_store.
    intuition congruence.
Qed.

Lemma swap_into_is_dict (pairs : dict) : forall acc d',
  is_dict acc -> swap_into pairs acc = Ok d' -> is_dict d'.
Proof.
  induction pairs as [|[a b] rest IH]; intros acc d' Hacc H; simpl in *.
  - injection H as <-. exact Hacc.
  - destruct (dict_setitem acc b a) as [acc'|] eqn:E; simpl in H;
      [|discriminate].
    apply setitem_inv in E. destruct E as [Hb ->].
    apply (IH _ _ (conj (store_keys_hashable a (proj1 Hacc) Hb)
                        (NoDup_ckeys_store _ _ _ b a (proj2 Hacc))) H).
Qed.

Lemma last_label_In (pairs : dict) c l :
  last_label pairs c = Some l ->
  exists id, In (l, id) pairs /\ hash_key id = c.
Proof.
  induction pairs as [|[a b] rest IH]; simpl; intros H.
  - discriminate.
  - destruct (last_label rest c) as [l'|].
    + injection H as ->. destruct (IH eq_refl) as (id & Hin & Hid).
      exists id. split; [right|]; assumption.
    + destruct (opt_hkey_eq_dec (hash_key b) c) as [E|]; [|discriminate].
      injection H as ->. exists b. split; [left; reflexivity | exact E].
Qed.

(** When no id occurs twice, every pair is appended turned around. *)
Lemma swap_into_injective (pairs : dict) : forall acc,
  values_hashable pairs ->
  NoDup (dict_keys acc ++ dict_values pairs) ->
  swap_into pairs acc = Ok (acc ++ map swap pairs).
Proof.
  induction pairs as [|[a b] rest IH]; intros acc Hh ND; simpl in *.
  - rewrite app_nil_r. reflexivity.
  - inversion Hh as [|x l Hb Hrest]; subst. simpl in Hb.
    rewrite setitem_hashable by exact Hb. simpl.
    rewrite store_fresh.
    + rewrite IH.
      * rewrite <- app_assoc. reflexivity.
      * exact Hrest.
      * unfold dict_keys, ckeys in *. rewrite map_app, <- app_assoc.
        exact ND.
    + apply NoDup_remove_2 in ND. intros Hin. apply ND.
      apply in_or_app. left. exact Hin.
Qed.

Lemma nodup_length_le {A} (dec : forall a b : A, {a = b} + {a <> b}) l :
  (List.length (nodup dec l) <= List.length l)%nat.
Proof.
  induction l as [|x l IH]; simpl; [lia|].
  destruct (in_dec dec x l); simpl; lia.
Qed.

Lemma nodup_length_lt {A} (dec : forall a b : A, {a = b} + {a <> b}) l :
  ~ NoDup l -> (List.length (nodup dec l) < List.length l)%nat.
Proof.
  induction l as [|x l IH]; simpl; intros H.
  - exfalso. apply H. constructor.
  - pose proof (nodup_length_le dec l) as Hle.
    destruct (in_dec dec x l) as [Hin|Hout]; simpl.
    + lia.
    + assert (~ NoDup l) as Hl
        by (intros ND; apply H; constructor; assumption).
      specialize (IH Hl). lia.
Qed.

Lemma same_elements_length {A} (dec : forall a b : A, {a = b} + {a <> b})
  (l l' : list A) :
  NoDup l -> (forall x, In x l <-> In x l') ->
  List.length l = List.length (nodup dec l').
Proof.
  intros ND Hsame. apply Nat.le_antisymm.
  - apply NoDup_incl_length; [exact ND|].
    intros x Hx. apply nodup_In. apply Hsame. exact Hx.
  - apply NoDup_incl_length; [apply NoDup_nodup|].
    intros x Hx. apply Hsame. apply nodup_In in Hx. exact Hx.
Qed.

Lemma exact_inverse_swap (d : dict) : exact_inverse d (map swap d).
Proof.
  intros a b. rewrite in_map_iff. split.
  - intros H. exists (a, b). split; [reflexivity | exact H].
  - intros ([a' b'] & E & H). unfold swap in E. simpl in E.
    injection E as -> ->. exact H.
Qed.

Lemma map_swap_swap (d : dict) : map swap (map swap d) = d.
Proof.
  rewrite map_map. rewrite <- (map_id d) at 2. apply map_ext.
  intros [a b]. reflexivity.
Qed.

Lemma dict_values_swap (d : dict) : dict_values (map swap d) = dict_keys d.
Proof. unfold dict_values, dict_keys, ckeys. rewrite map_map. reflexivity. Qed.

Lemma values_hashable_swap (d : dict) :
  is_dict d -> values_hashable (map swap d).
Proof.
  intros [Hk _]. unfold values_hashable. rewrite Forall_map.
  exact Hk.
Qed.

(** Everything the file needs to know about [{b: a for a, b in d.items()}]. *)
Lemma invert_dict (d : dict) :
  values_hashable d ->
  exists d',
    invert (VDict d) = Ok (VDict d') /\
    maps_back d d' /\
    (forall c, dict_get d' c = last_label d c) /\
    List.length d' = distinct_ids d /\
    (NoDup (dict_values d) -> d' = map swap d).
Proof.
  intros Hh. destruct (swap_into_total Hh []) as [d' Hd'].
  assert (is_dict d') as Hdict.
  { apply (@swap_into_is_dict d [] d'); [|exact Hd'].
    split; constructor. }
  assert (forall c, In c (dict_keys d') <-> In c (dict_values d)) as Hkeys.
  { intros c. rewrite (swap_into_keys d [] c Hd'). simpl. tauto. }
  assert (forall c, dict_get d' c = last_label d c) as Hget.
  { intros c. rewrite (swap_into_lookup d [] c Hd').
    destruct (last_label d c); reflexivity. }
  exists d'. split; [|split; [|split; [|split]]].
  - unfold invert. simpl. rewrite Hd'. reflexivity.
  - split; [exact Hdict | split; [exact Hkeys|]].
    intros c label H. rewrite Hget in H. exact (last_label_In d c H).
  - exact Hget.
  - unfold distinct_ids.
    rewrite <- (length_map (fun kv => hash_key (fst kv)) d').
    apply same_elements_length; [exact (proj2 Hdict) | exact Hkeys].
  - intros ND. rewrite swap_into_injective in Hd' by assumption.
    injection Hd' as <-. reflexivity.
Qed.
End InvertFacts.

(** ** Facts about runs of the factory *)

Section RunFacts.
Import Py Ext Spec Aux VecoForTokenClassification.
Variable World : Type.
Variable h : handler World.

Lemma kw_get_after_pop (kwargs : kwdict) k :
  k <> "model_dir" ->
  kw_get (kw_remove kwargs "model_dir") k = kw_get kwargs k.
Proof.
  intros H. unfold kw_get, kw_remove. apply lookup_remove_other.
  congruence.
Qed.

Lemma kwargs_get_after_pop (kwargs : kwdict) k default :
  k <> "model_dir" ->
  kwargs_get (kw_remove kwargs "model_dir") k default =
  kwargs_get kwargs k default.
Proof.
  intros H. unfold kwargs_get. rewrite kw_get_after_pop by exact H.
  reflexivity.
Qed.

(** With a directory, a run is: parse, resolve the labels, load. *)
Lemma instantiate_with_dir (kwargs : kwdict) (model_dir : value)
  (st : state World) :
  kw_get kwargs "model_dir" = Some model_dir ->
  is_none model_dir = false ->
  _instantiate h kwargs st =
    match h (parse_label_mapping model_dir) (world st) with
    | (w1, Ok parsed) =>
        let st1 := State w1 (trace st ++ [parse_label_mapping model_dir]) in
        match resolve_labels (kw_remove kwargs "model_dir") parsed with
        | Ok model_kwargs =>
            after h (from_pretrained model_dir model_kwargs) st1
        | Err e => (st1, Err e)
        end
    | (w1, Err e) =>
        (State w1 (trace st ++ [parse_label_mapping model_dir]), Err e)
    end.
Proof.
  intros Hdir Hnone.
  assert (kwargs_get kwargs "model_dir" VNone = model_dir) as Hpop
    by (unfold kwargs_get; rewrite Hdir; reflexivity).
  unfold _instantiate, kwargs_pop. rewrite Hpop, Hnone.
  unfold bind at 1. unfold call at 1.
  destruct (h (parse_label_mapping model_dir) (world st)) as [w1 [parsed|e]];
    [|reflexivity].
  unfold resolve_labels, bind, lift, rbind, after, call.
  cbv zeta.
  repeat match goal with
         | |- context [match (if ?c then ?a else ?b) with
                       | Ok _ => _ | Err _ => _ end] =>
             destruct (if c then a else b)
         end; try reflexivity.
  simpl world. simpl trace.
  match goal with
  | |- context [h ?e w1] => destruct (h e w1)
  end.
  rewrite <- app_assoc. reflexivity.
Qed.

Lemma model_kwargs_three (n l i : value) :
  kw_set (kw_set (kw_set [] "num_labels" n) "label2id" l) "id2label" i =
  [("num_labels", n); ("label2id", l); ("id2label", i)].
Proof. reflexivity. Qed.
End RunFacts.

(** ** Facts about the resolution of the labels *)

Section ResolveFacts.
Import Py Ext Spec Aux VecoForTokenClassification.

Lemma resolve_label2id_only (kw : kwdict) (parsed : value) (d d' : dict) :
  kw_get kw "label2id" = Some (VDict d) ->
  kw_get kw "id2label" = None ->
  kw_get kw "num_labels" = None ->
  invert (VDict d) = Ok (VDict d') ->
  resolve_labels kw parsed =
    Ok [("num_labels", VInt (Z.of_nat (List.length d)));
        ("label2id", VDict d); ("id2label", VDict d')].
Proof.
  intros Hl Hi Hn Hinv. unfold resolve_labels, kwargs_get.
  rewrite Hl, Hi, Hn. cbv zeta. simpl is_none. cbv iota.
  rewrite Hinv. reflexivity.
Qed.

Lemma resolve_nothing (kw : kwdict) :
  kw_get kw "label2id" = None ->
  kw_get kw "id2label" = None ->
  kw_get kw "num_labels" = None ->
  resolve_labels kw VNone = Ok [].
Proof.
  intros Hl Hi Hn. unfold resolve_labels, kwargs_get.
  rewrite Hl, Hi, Hn. reflexivity.
Qed.

Lemma resolve_ignores_parse (kw : kwdict) (explicit p1 p2 : value) :
  kw_get kw "label2id" = Some explicit ->
  resolve_labels kw p1 = resolve_labels kw p2.
Proof.
  intros Hl. unfold resolve_labels, kwargs_get. rewrite Hl. reflexivity.
Qed.

Lemma resolve_explicit_count (kw : kwdict) (parsed n : value) (d d' : dict) :
  kw_get kw "label2id" = Some (VDict d) ->
  kw_get kw "num_labels" = Some n ->
  is_none n = false ->
  invert (VDict d) = Ok (VDict d') ->
  exists model_kwargs,
    resolve_labels kw parsed = Ok model_kwargs /\
    kw_get model_kwargs "label2id" = Some (VDict d) /\
    kw_get model_kwargs "num_labels" = Some n.
Proof.
  intros Hl Hn Hnn Hinv. unfold resolve_labels, kwargs_get.
  rewrite Hl, Hn. cbv zeta. simpl is_none. cbv iota.
  rewrite Hinv. simpl rbind. rewrite Hnn. simpl negb. cbv iota.
  rewrite andb_false_r. cbv iota. simpl rbind.
  destruct (kw_get kw "id2label") as [i|].
  - destruct (is_none i); simpl negb; cbv iota;
      eexists; (split; [reflexivity | split; reflexivity]).
  - eexists. split; [reflexivity | split; reflexivity].
Qed.

Lemma resolve_id2label_only (kw : kwdict) (d d' : dict) :
  kw_get kw "label2id" = None ->
  kw_get kw "id2label" = Some (VDict d) ->
  invert (VDict d) = Ok (VDict d') ->
  exists model_kwargs,
    resolve_labels kw VNone = Ok model_kwargs /\
    kw_get model_kwargs "label2id" = Some (VDict d') /\
    kw_get model_kwargs "id2label" = Some (VDict d).
Proof.
  intros Hl Hi Hinv. unfold resolve_labels, kwargs_get.
  rewrite Hl, Hi. cbv zeta. simpl is_none. cbv iota. simpl rbind.
  simpl negb. simpl andb. cbv iota. rewrite Hinv. simpl rbind.
  destruct (kw_get kw "num_labels") as [n|].
  - destruct (is_none n); simpl negb; cbv iota;
      eexists; (split; [reflexivity | split; reflexivity]).
  - eexists. split; [reflexivity | split; reflexivity].
Qed.
End ResolveFacts.

(** ** The factory, with a model directory *)

Section FactoryWithDirectory.
Import Py Ext Spec Aux VecoForTokenClassification.

Ltac enter_dir Hdir Hnone Hparse :=
  match type of Hparse with
  | ?h _ (world ?st) = _ =>
      rewrite (@instantiate_with_dir _ h _ _ st Hdir Hnone), Hparse; cbv zeta
  end.

(** C1.  A call with a directory and an explicit [label2id], without
    [id2label] and without [num_labels], reaches the loader with
    [num_labels] set to the number of entries of [label2id] and with an
    [id2label] that maps each id back to its label; when no two labels
    share an id, that [id2label] is the exact inverse of [label2id]. *)
Theorem label2id_only_count_and_inverse
  (World : Type) (h : handler World) (kwargs : kwdict) (model_dir : value)
  (label2id : dict) (st : state World) (w1 : World) (parsed : value) :
  kw_get kwargs "model_dir" = Some model_dir ->
  is_none model_dir = false ->
  kw_get kwargs "label2id" = Some (VDict label2id) ->
  kw_get kwargs "id2label" = None ->
  kw_get kwargs "num_labels" = None ->
  values_hashable label2id ->
  h (parse_label_mapping model_dir) (world st) = (w1, Ok parsed) ->
  exists id2label : dict,
    _instantiate h kwargs st =
      after h
        (from_pretrained model_dir
           [("num_labels", VInt (Z.of_nat (List.length label2id)));
            ("label2id", VDict label2id);
            ("id2label", VDict id2label)])
        (State w1 (trace st ++ [parse_label_mapping model_dir])) /\
    maps_back label2id id2label /\
    (NoDup (dict_values label2id) -> exact_inverse label2id id2label).
Proof.
  intros Hdir Hnone Hl Hi Hn Hh Hparse.
  destruct (invert_dict Hh) as (d' & Hinv & Hback & _ & _ & Hexact).
  exists d'. split; [|split].
  - enter_dir Hdir Hnone Hparse.
    rewrite (@resolve_label2id_only _ parsed label2id d');
      try rewrite kw_get_after_pop by discriminate; auto.
  - exact Hback.
  - intros ND. rewrite (Hexact ND). apply exact_inverse_swap.
Qed.

(** C10.  When two labels of the explicit [label2id] share an id, the
    derived [id2label] has one entry per distinct id, holding the last
    label that carries the id, while [num_labels] counts every entry of
    [label2id]: it exceeds the number of entries of [id2label]. *)
Theorem clashing_ids_keep_last_label
  (World : Type) (h : handler World) (kwargs : kwdict) (model_dir : value)
  (label2id : dict) (st : state World) (w1 : World) (parsed : value) :
  kw_get kwargs "model_dir" = Some model_dir ->
  is_none model_dir = false ->
  kw_get kwargs "label2id" = Some (VDict label2id) ->
  kw_get kwargs "id2label" = None ->
  kw_get kwargs "num_labels" = None ->
  values_hashable label2id ->
  ~ NoDup (dict_values label2id) ->
  h (parse_label_mapping model_dir) (world st) = (w1, Ok parsed) ->
  exists id2label : dict,
    _instantiate h kwargs st =
      after h
        (from_pretrained model_dir
           [("num_labels", VInt (Z.of_nat (List.length label2id)));
            ("label2id", VDict label2id);
            ("id2label", VDict id2label)])
        (State w1 (trace st ++ [parse_label_mapping model_dir])) /\
    NoDup (dict_keys id2label) /\
    (forall c, In c (dict_keys id2label) <-> In c (dict_values label2id)) /\
    (forall c, dict_get id2label c = last_label label2id c) /\
    List.length id2label = distinct_ids label2id /\
    (List.length id2label < List.length label2id)%nat.
Proof.
  intros Hdir Hnone Hl Hi Hn Hh Hclash Hparse.
  destruct (invert_dict Hh)
    as (d' & Hinv & (Hdict & Hkeys & _) & Hlast & Hlen & _).
  exists d'. split; [|split; [|split; [|split; [|split]]]].
  - enter_dir Hdir Hnone Hparse.
    rewrite (@resolve_label2id_only _ parsed label2id d');
      try rewrite kw_get_after_pop by discriminate; auto.
  - exact (proj2 Hdict).
  - exact Hkeys.
  - exact Hlast.
  - exact Hlen.
  - rewrite Hlen. unfold distinct_ids.
    pose proof (nodup_length_lt opt_hkey_eq_dec Hclash) as Hlt.
    unfold dict_values in *. rewrite length_map in Hlt. exact Hlt.
Qed.

(** C4.  When the parser finds no mapping and the call overrides none of
    [label2id], [id2label], [num_labels], the loader receives the directory
    and an empty keyword set. *)
Theorem no_labels_no_keys
  (World : Type) (h : handler World) (kwargs : kwdict) (model_dir : value)
  (st : state World) (w1 : World) :
  kw_get kwargs "model_dir" = Some model_dir ->
  is_none model_dir = false ->
  kw_get kwargs "label2id" = None ->
  kw_get kwargs "id2label" = None ->
  kw_get kwargs "num_labels" = None ->
  h (parse_label_mapping model_dir) (world st) = (w1, Ok VNone) ->
  let model_kwargs : kwdict := [] in
  _instantiate h kwargs st =
    after h (from_pretrained model_dir model_kwargs)
      (State w1 (trace st ++ [parse_label_mapping model_dir])) /\
  kw_get model_kwargs "num_labels" = None /\
  kw_get model_kwargs "label2id" = None /\
  kw_get model_kwargs "id2label" = None.
Proof.
  intros Hdir Hnone Hl Hi Hn Hparse. cbv zeta.
  split; [|repeat split].
  enter_dir Hdir Hnone Hparse.
  rewrite resolve_nothing;
    try rewrite kw_get_after_pop by discriminate; auto.
Qed.

(** C5.  When the call gives both [label2id] and [num_labels], the loader
    receives exactly these two values: the count of [label2id] does not
    replace the given [num_labels]. *)
Theorem explicit_count_passes_through
  (World : Type) (h : handler World) (kwargs : kwdict) (model_dir : value)
  (label2id : dict) (num_labels : value)
  (st : state World) (w1 : World) (parsed : value) :
  kw_get kwargs "model_dir" = Some model_dir ->
  is_none model_dir = false ->
  kw_get kwargs "label2id" = Some (VDict label2id) ->
  kw_get kwargs "num_labels" = Some num_labels ->
  is_none num_labels = false ->
  values_hashable label2id ->
  h (parse_label_mapping model_dir) (world st) = (w1, Ok parsed) ->
  exists model_kwargs : kwdict,
    _instantiate h kwargs st =
      after h (from_pretrained model_dir model_kwargs)
        (State w1 (trace st ++ [parse_label_mapping model_dir])) /\
    kw_get model_kwargs "label2id" = Some (VDict label2id) /\
    kw_get model_kwargs "num_labels" = Some num_labels.
Proof.
  intros Hdir Hnone Hl Hn Hnn Hh Hparse.
  destruct (invert_dict Hh) as (d' & Hinv & _).
  destruct (@resolve_explicit_count (kw_remove kwargs "model_dir")
              parsed num_labels label2id d')
    as (mk & Hmk & Hl' & Hn');
    try rewrite kw_get_after_pop by discriminate; auto.
  exists mk. split; [|split; assumption].
  enter_dir Hdir Hnone Hparse. rewrite Hmk. reflexivity.
Qed.

(** C2.  A call with a directory and an explicit [id2label], without
    [label2id], for which the parser finds no mapping, reaches the loader
    with the given [id2label] and with a [label2id] that maps each label
    back to its id; when [id2label] is a bijective dictionary the derived
    [label2id] is its exact inverse and inverting it again gives
    [id2label]. *)
Theorem id2label_only_derives_label2id
  (World : Type) (h : handler World) (kwargs : kwdict) (model_dir : value)
  (id2label : dict) (st : state World) (w1 : World) :
  kw_get kwargs "model_dir" = Some model_dir ->
  is_none model_dir = false ->
  kw_get kwargs "label2id" = None ->
  kw_get kwargs "id2label" = Some (VDict id2label) ->
  is_dict id2label ->
  values_hashable id2label ->
  h (parse_label_mapping model_dir) (world st) = (w1, Ok VNone) ->
  exists (label2id : dict) (model_kwargs : kwdict),
    _instantiate h kwargs st =
      after h (from_pretrained model_dir model_kwargs)
        (State w1 (trace st ++ [parse_label_mapping model_dir])) /\
    kw_get model_kwargs "label2id" = Some (VDict label2id) /\
    kw_get model_kwargs "id2label" = Some (VDict id2label) /\
    maps_back id2label label2id /\
    (NoDup (dict_values id2label) ->
       exact_inverse id2label label2id /\
       invert (VDict label2id) = Ok (VDict id2label)).
Proof.
  intros Hdir Hnone Hl Hi Hd Hh Hparse.
  destruct (invert_dict Hh) as (d' & Hinv & Hback & _ & _ & Hexact).
  destruct (@resolve_id2label_only (kw_remove kwargs "model_dir")
              id2label d')
    as (mk & Hmk & Hl' & Hi');
    try rewrite kw_get_after_pop by discriminate; auto.
  exists d', mk. split; [|split; [|split; [|split]]]; try assumption.
  - enter_dir Hdir Hnone Hparse. rewrite Hmk. reflexivity.
  - intros ND. rewrite (Hexact ND). split; [apply exact_inverse_swap|].
    unfold invert. simpl items. simpl rbind.
    rewrite swap_into_injective.
    + simpl. rewrite map_swap_swap. reflexivity.
    + apply values_hashable_swap. exact Hd.
    + simpl. rewrite dict_values_swap. exact (proj2 Hd).
Qed.

(** C9.  When [label2id] is given in the call, what the parser returns
    does not reach the loader: two runs whose parsers return different
    values, and which agree otherwise, make the same calls with the same
    arguments and end alike. *)
Theorem explicit_label2id_hides_parse
  (World : Type) (h1 h2 : handler World) (kwargs : kwdict)
  (model_dir explicit : value) (st : state World) (w1 : World)
  (p1 p2 : value) :
  kw_get kwargs "model_dir" = Some model_dir ->
  is_none model_dir = false ->
  kw_get kwargs "label2id" = Some explicit ->
  (forall e w, is_parse e = false -> h1 e w = h2 e w) ->
  h1 (parse_label_mapping model_dir) (world st) = (w1, Ok p1) ->
  h2 (parse_label_mapping model_dir) (world st) = (w1, Ok p2) ->
  _instantiate h1 kwargs st = _instantiate h2 kwargs st.
Proof.
  intros Hdir Hnone Hl Hagree H1 H2.
  enter_dir Hdir Hnone H1. enter_dir Hdir Hnone H2.
  rewrite (@resolve_ignores_parse _ explicit p1 p2)
    by (rewrite kw_get_after_pop by discriminate; exact Hl).
  destruct (resolve_labels (kw_remove kwargs "model_dir") p2);
    [|reflexivity].
  unfold after. simpl world. rewrite Hagree by reflexivity. reflexivity.
Qed.
End FactoryWithDirectory.

(** ** Construction, inference, and the factory without a directory *)

Section Delegation.
Import Py Ext Spec Aux VecoForTokenClassification.

Lemma kw_get_set (d : kwdict) k v c :
  kw_get (kw_set d k v) c = if string_dec k c then Some v else kw_get d c.
Proof. unfold kw_get, kw_set. apply lookup_store. Qed.

Ltac answer h :=
  match goal with
  | |- context [h ?e ?w] =>
      let w' := fresh "w" in
      let r := fresh "r" in
      let ex := fresh "ex" in
      destruct (h e w) as [w' [r|ex]]; simpl
  end.

Ltac read_attr :=
  match goal with
  | |- context [getattr ?o ?a] =>
      let v := fresh "v" in
      let ex := fresh "ex" in
      destruct (getattr o a) as [v|ex]; simpl
  end.

(** C3.  Whatever the caller passes, the parent's forward is called once,
    with the caller's arguments and [return_dict] set to [True]; the
    object returned carries the loss, logits, hidden states and attentions
    of the parent's result, and the call leaves the world as the parent
    left it. *)
Theorem forward_forces_return_dict_and_repackages
  (World : Type) (h : handler World) (self : value) (args : list value)
  (kwargs : kwdict) (st : state World) :
  let kwargs' := kw_set kwargs "return_dict" (VBool true) in
  let e := RobertaForTokenClassification_forward self args kwargs' in
  let run := forward h self args kwargs st in
  kw_get kwargs' "return_dict" = Some (VBool true) /\
  (forall k, k <> "return_dict" -> kw_get kwargs' k = kw_get kwargs k) /\
  trace (fst run) = trace st ++ [e] /\
  world (fst run) = fst (h e (world st)) /\
  (forall outputs loss logits hidden_states attentions,
      snd (h e (world st)) = Ok outputs ->
      getattr outputs "loss" = Ok loss ->
      getattr outputs "logits" = Ok logits ->
      getattr outputs "hidden_states" = Ok hidden_states ->
      getattr outputs "attentions" = Ok attentions ->
      exists out,
        snd run = Ok out /\
        out = AttentionTokenClassificationModelOutput
                loss logits hidden_states attentions /\
        getattr out "loss" = Ok loss /\
        getattr out "logits" = Ok logits /\
        getattr out "hidden_states" = Ok hidden_states /\
        getattr out "attentions" = Ok attentions).
Proof.
  cbv zeta. split; [|split; [|split; [|split]]].
  - rewrite kw_get_set. destruct (string_dec "return_dict" "return_dict");
      congruence.
  - intros k Hk. rewrite kw_get_set.
    destruct (string_dec "return_dict" k); congruence.
  - unfold forward, bind, call, lift, ret. answer h; [|reflexivity].
    repeat read_attr; reflexivity.
  - unfold forward, bind, call, lift, ret. answer h; [|reflexivity].
    repeat read_attr; reflexivity.
  - intros outputs loss logits hidden_states attentions Hout H1 H2 H3 H4.
    eexists. split; [|split; [reflexivity | repeat split; reflexivity]].
    unfold forward, bind, call, lift, ret.
    destruct (h _ (world st)) as [w' r]. simpl in Hout. subst r.
    rewrite H1, H2, H3, H4. reflexivity.
Qed.

(** C7.  With a configuration that has a path identifier and that the two
    ancestors accept, construction returns normally after exactly two
    calls: [TorchModel.__init__] with the identifier and the caller's
    keywords, then the task model's [__init__] with the configuration. *)
Theorem init_delegates_twice_in_order
  (World : Type) (h : handler World) (self config name_or_path : value)
  (kwargs : kwdict) (st : state World) (w1 w2 : World) (r1 r2 : value) :
  getattr config "name_or_path" = Ok name_or_path ->
  h (TorchModel_init self name_or_path kwargs) (world st) = (w1, Ok r1) ->
  h (RobertaForTokenClassification_init self config) w1 = (w2, Ok r2) ->
  __init__ h self config kwargs st =
    (State w2
       (trace st ++
          [TorchModel_init self name_or_path kwargs;
           RobertaForTokenClassification_init self config]),
     Ok VNone).
Proof.
  intros Hname H1 H2.
  unfold __init__, bind, call, lift, ret. rewrite Hname, H1. simpl.
  rewrite H2. rewrite <- app_assoc. reflexivity.
Qed.

(** C6.  Without a directory the factory passes the remaining keywords to
    the configuration constructor and constructs the class on the result;
    no run of this branch calls the label parser or the loader. *)
Theorem no_directory_builds_from_config
  (World : Type) (h : handler World) (kwargs : kwdict) (st : state World) :
  is_none (kwargs_get kwargs "model_dir" VNone) = true ->
  let config_kwargs := kw_remove kwargs "model_dir" in
  let run := _instantiate h kwargs st in
  (forall k, k <> "model_dir" -> kw_get config_kwargs k = kw_get kwargs k) /\
  (exists es,
      trace (fst run) = trace st ++ VecoConfig config_kwargs :: es /\
      Forall (fun e => is_parse e = false /\ is_from_pretrained e = false)
             es) /\
  (forall w1 config name_or_path w2 self w3 r3 w4 r4,
      h (VecoConfig config_kwargs) (world st) = (w1, Ok config) ->
      getattr config "name_or_path" = Ok name_or_path ->
      h object_new w1 = (w2, Ok self) ->
      h (TorchModel_init self name_or_path []) w2 = (w3, Ok r3) ->
      h (RobertaForTokenClassification_init self config) w3 = (w4, Ok r4) ->
      run =
        (State w4
           (trace st ++
              [VecoConfig config_kwargs; object_new;
               TorchModel_init self name_or_path [];
               RobertaForTokenClassification_init self config]),
         Ok self)).
Proof.
  intros Hnone. cbv zeta. split; [|split].
  - intros k Hk. apply kw_get_after_pop. exact Hk.
  - unfold _instantiate, kwargs_pop. rewrite Hnone.
    unfold cls, __init__, bind, call, lift, ret.
    answer h; [|eexists; split; [reflexivity | constructor]].
    answer h; [|eexists; split;
                 [rewrite <- app_assoc; reflexivity | repeat constructor]].
    read_attr; [|eexists; split;
                  [rewrite <- app_assoc; reflexivity | repeat constructor]].
    answer h; [|eexists; split;
                 [rewrite <- !app_assoc; reflexivity | repeat constructor]].
    answer h; eexists; (split;
                 [rewrite <- !app_assoc; reflexivity | repeat constructor]).
  - intros w1 config name w2 self w3 r3 w4 r4 H1 Hname H2 H3 H4.
    unfold _instantiate, kwargs_pop. rewrite Hnone.
    unfold cls, __init__, bind, call, lift, ret.
    rewrite H1. simpl. rewrite H2. simpl. rewrite Hname. simpl.
    rewrite H3. simpl. rewrite H4. rewrite <- !app_assoc. reflexivity.
Qed.

(** C8.  An exception raised by the parent's forward, by the label parser,
    by the configuration constructor or by the loader is the result of the
    method that made the call, and the world is left as the failing call
    left it. *)
Theorem external_errors_propagate_unchanged
  (World : Type) (h : handler World) (st : state World) (w' : World)
  (e : exn) :
  (forall self args kwargs,
      let call_ := RobertaForTokenClassification_forward self args
                     (kw_set kwargs "return_dict" (VBool true)) in
      h call_ (world st) = (w', Err e) ->
      forward h self args kwargs st =
        (State w' (trace st ++ [call_]), Err e)) /\
  (forall kwargs model_dir,
      kw_get kwargs "model_dir" = Some model_dir ->
      is_none model_dir = false ->
      h (parse_label_mapping model_dir) (world st) = (w', Err e) ->
      _instantiate h kwargs st =
        (State w' (trace st ++ [parse_label_mapping model_dir]), Err e)) /\
  (forall kwargs,
      is_none (kwargs_get kwargs "model_dir" VNone) = true ->
      let call_ := VecoConfig (kw_remove kwargs "model_dir") in
      h call_ (world st) = (w', Err e) ->
      _instantiate h kwargs st = (State w' (trace st ++ [call_]), Err e)) /\
  (forall kwargs model_dir w1 parsed model_kwargs,
      kw_get kwargs "model_dir" = Some model_dir ->
      is_none model_dir = false ->
      h (parse_label_mapping model_dir) (world st) = (w1, Ok parsed) ->
      resolve_labels (kw_remove kwargs "model_dir") parsed
        = Ok model_kwargs ->
      h (from_pretrained model_dir model_kwargs) w1 = (w', Err e) ->
      _instantiate h kwargs st =
        (State w'
           (trace st ++
              [parse_label_mapping model_dir;
               from_pretrained model_dir model_kwargs]),
         Err e)).
Proof.
  split; [|split; [|split]].
  - intros self args kwargs call_ Hcall. subst call_.
    unfold forward, bind, call. rewrite Hcall. reflexivity.
  - intros kwargs model_dir Hdir Hnone Hparse.
    rewrite (@instantiate_with_dir _ h _ _ st Hdir Hnone), Hparse.
    reflexivity.
  - intros kwargs Hnone call_ Hcall. subst call_.
    unfold _instantiate, kwargs_pop. rewrite Hnone.
    unfold bind, call. rewrite Hcall. reflexivity.
  - intros kwargs model_dir w1 parsed mk Hdir Hnone Hparse Hmk Hload.
    rewrite (@instantiate_with_dir _ h _ _ st Hdir Hnone), Hparse.
    cbv zeta. rewrite Hmk. unfold after. simpl world. simpl trace.
    rewrite Hload, <- app_assoc. reflexivity.
Qed.
End Delegation.


(** ** Concrete runs *)

Section Concrete.
Import Py Ext Spec Aux VecoForTokenClassification.

Ltac concrete :=
  first [ reflexivity
        | repeat constructor; cbv; intuition discriminate ].

(** C1 on a three-label NER mapping. *)
Lemma label2id_only_witness :
  values_hashable ner_label2id /\
  NoDup (dict_values ner_label2id) /\
  exists id2label : dict,
    _instantiate (sample_handler VNone)
      [("model_dir", VStr "/ckpt"); ("label2id", VDict ner_label2id)] start =
    after (sample_handler VNone)
      (from_pretrained (VStr "/ckpt")
         [("num_labels", VInt 3); ("label2id", VDict ner_label2id);
          ("id2label", VDict id2label)])
      (State 1%nat [parse_label_mapping (VStr "/ckpt")]) /\
    exact_inverse ner_label2id id2label.
Proof.
  assert (values_hashable ner_label2id) as Hh by concrete.
  assert (NoDup (dict_values ner_label2id)) as ND by concrete.
  split; [exact Hh | split; [exact ND|]].
  destruct (@label2id_only_count_and_inverse nat (sample_handler VNone)
              [("model_dir", VStr "/ckpt"); ("label2id", VDict ner_label2id)]
              (VStr "/ckpt") ner_label2id start 1%nat VNone)
    as (id2label & Hrun & _ & Hexact); try reflexivity; try exact Hh.
  exists id2label. split; [exact Hrun | exact (Hexact ND)].
Defined.

(** C10 on a mapping where "O" and "PAD" share id 0. *)
Lemma clashing_ids_witness :
  ~ NoDup (dict_values clashing_label2id) /\
  exists id2label : dict,
    _instantiate (sample_handler VNone)
      [("model_dir", VStr "/ckpt"); ("label2id", VDict clashing_label2id)]
      start =
    after (sample_handler VNone)
      (from_pretrained (VStr "/ckpt")
         [("num_labels", VInt 3); ("label2id", VDict clashing_label2id);
          ("id2label", VDict id2label)])
      (State 1%nat [parse_label_mapping (VStr "/ckpt")]) /\
    dict_get id2label (hash_key (VInt 0)) = Some (VStr "PAD") /\
    (List.length id2label < 3)%nat.
Proof.
  assert (~ NoDup (dict_values clashing_label2id)) as Hclash.
  { intros ND. apply NoDup_cons_iff in ND. destruct ND as [Hnot _].
    apply Hnot. right. left. reflexivity. }
  split; [exact Hclash|].
  destruct (@clashing_ids_keep_last_label nat (sample_handler VNone)
              [("model_dir", VStr "/ckpt");
               ("label2id", VDict clashing_label2id)]
              (VStr "/ckpt") clashing_label2id start 1%nat VNone)
    as (id2label & Hrun & _ & _ & Hlast & _ & Hlt);
    try reflexivity; try exact Hclash; [concrete|].
  exists id2label. split; [exact Hrun | split; [|exact Hlt]].
  rewrite Hlast. reflexivity.
Defined.

(** C4 on a directory without a label file. *)
Lemma no_labels_witness :
  _instantiate (sample_handler VNone)
    [("model_dir", VStr "/ckpt"); ("hidden_size", VInt 8)] start =
  after (sample_handler VNone) (from_pretrained (VStr "/ckpt") [])
    (State 1%nat [parse_label_mapping (VStr "/ckpt")]).
Proof.
  apply (@no_labels_no_keys nat (sample_handler VNone)
           [("model_dir", VStr "/ckpt"); ("hidden_size", VInt 8)]
           (VStr "/ckpt") start 1%nat); reflexivity.
Defined.

(** C5: three labels, but the caller asks for five classes. *)
Lemma explicit_count_witness :
  exists model_kwargs : kwdict,
    _instantiate (sample_handler VNone)
      [("model_dir", VStr "/ckpt"); ("label2id", VDict ner_label2id);
       ("num_labels", VInt 5)] start =
    after (sample_handler VNone)
      (from_pretrained (VStr "/ckpt") model_kwargs)
      (State 1%nat [parse_label_mapping (VStr "/ckpt")]) /\
    kw_get model_kwargs "label2id" = Some (VDict ner_label2id) /\
    kw_get model_kwargs "num_labels" = Some (VInt 5).
Proof.
  apply (@explicit_count_passes_through nat (sample_handler VNone)
           [("model_dir", VStr "/ckpt"); ("label2id", VDict ner_label2id);
            ("num_labels", VInt 5)]
           (VStr "/ckpt") ner_label2id (VInt 5) start 1%nat VNone);
    concrete.
Defined.

(** C2 on the inverse NER mapping. *)
Lemma id2label_only_witness :
  is_dict ner_id2label /\
  NoDup (dict_values ner_id2label) /\
  exists (label2id : dict) (model_kwargs : kwdict),
    _instantiate (sample_handler VNone)
      [("model_dir", VStr "/ckpt"); ("id2label", VDict ner_id2label)] start =
    after (sample_handler VNone)
      (from_pretrained (VStr "/ckpt") model_kwargs)
      (State 1%nat [parse_label_mapping (VStr "/ckpt")]) /\
    kw_get model_kwargs "label2id" = Some (VDict label2id) /\
    exact_inverse ner_id2label label2id /\
    invert (VDict label2id) = Ok (VDict ner_id2label).
Proof.
  assert (is_dict ner_id2label) as Hd by (split; concrete).
  assert (NoDup (dict_values ner_id2label)) as ND by concrete.
  split; [exact Hd | split; [exact ND|]].
  destruct (@id2label_only_derives_label2id nat (sample_handler VNone)
              [("model_dir", VStr "/ckpt"); ("id2label", VDict ner_id2label)]
              (VStr "/ckpt") ner_id2label start 1%nat)
    as (label2id & mk & Hrun & Hl & _ & _ & Hexact);
    try reflexivity; try exact Hd; [concrete|].
  exists label2id, mk.
  split; [exact Hrun | split; [exact Hl | exact (Hexact ND)]].
Defined.

(** C9: one parser finds nothing, the other finds a mapping; the caller's
    [label2id] is what reaches the loader in both runs. *)
Lemma explicit_label2id_witness :
  _instantiate (sample_handler VNone)
    [("model_dir", VStr "/ckpt"); ("label2id", VDict ner_label2id)] start =
  _instantiate (sample_handler (VDict clashing_label2id))
    [("model_dir", VStr "/ckpt"); ("label2id", VDict ner_label2id)] start.
Proof.
  apply (@explicit_label2id_hides_parse nat
           (sample_handler VNone) (sample_handler (VDict clashing_label2id))
           [("model_dir", VStr "/ckpt"); ("label2id", VDict ner_label2id)]
           (VStr "/ckpt") (VDict ner_label2id) start 1%nat
           VNone (VDict clashing_label2id)); try reflexivity.
  intros e w He. destruct e; try reflexivity. discriminate He.
Defined.
(** C3: the caller asks for a tuple, the parent is still asked for a
    structured result, whose four fields come back. *)
Lemma forward_witness :
  let run := forward (sample_handler VNone) (VRef 1) [VRef 2]
               [("return_dict", VBool false)] start in
  trace (fst run) =
    [RobertaForTokenClassification_forward (VRef 1) [VRef 2]
       [("return_dict", VBool true)]] /\
  exists out,
    snd run = Ok out /\
    getattr out "loss" = Ok VNone /\
    getattr out "logits" = Ok (VRef 40) /\
    getattr out "hidden_states" = Ok VNone /\
    getattr out "attentions" = Ok (VRef 41).
Proof.
  destruct (@forward_forces_return_dict_and_repackages nat
              (sample_handler VNone) (VRef 1) [VRef 2]
              [("return_dict", VBool false)] start)
    as (_ & _ & Htrace & _ & Hfields).
  split; [exact Htrace|].
  destruct (Hfields sample_outputs VNone (VRef 40) VNone (VRef 41))
    as (out & Hrun & _ & H1 & H2 & H3 & H4); try reflexivity.
  exists out. repeat split; assumption.
Defined.

(** C7 on a configuration that names its checkpoint. *)
Lemma init_witness :
  let config := VObj "VecoConfig" [("name_or_path", VStr "/ckpt")] in
  __init__ (sample_handler VNone) (VRef 9) config [] start =
    (State 2%nat
       [TorchModel_init (VRef 9) (VStr "/ckpt") [];
        RobertaForTokenClassification_init (VRef 9) config],
     Ok VNone).
Proof.
  apply (@init_delegates_twice_in_order nat (sample_handler VNone)
           (VRef 9) (VObj "VecoConfig" [("name_or_path", VStr "/ckpt")])
           (VStr "/ckpt") [] start 1%nat 2%nat VNone VNone); reflexivity.
Defined.

(** C6: [model_dir=None] and one configuration keyword. *)
Lemma no_directory_witness :
  let kwargs := [("model_dir", VNone); ("hidden_size", VInt 8)] in
  let config :=
    VObj "VecoConfig" [("hidden_size", VInt 8); ("name_or_path", VStr "")] in
  _instantiate (sample_handler VNone) kwargs start =
    (State 4%nat
       [VecoConfig [("hidden_size", VInt 8)]; object_new;
        TorchModel_init (VRef 1) (VStr "") [];
        RobertaForTokenClassification_init (VRef 1) config],
     Ok (VRef 1)).
Proof.
  destruct (@no_directory_builds_from_config nat (sample_handler VNone)
              [("model_dir", VNone); ("hidden_size", VInt 8)] start)
    as (_ & _ & Hrun); [reflexivity|].
  apply (Hrun 1%nat
           (VObj "VecoConfig"
              [("hidden_size", VInt 8); ("name_or_path", VStr "")])
           (VStr "") 2%nat (VRef 1) 3%nat VNone 4%nat VNone); reflexivity.
Defined.

(** C8: each of the four calls fails in turn. *)
Lemma external_errors_witness :
  let oserror := Raised (VStr "OSError") in
  let all := fun _ : event => true in
  forward (failing_handler all VNone) (VRef 1) [VRef 2] [] start =
    (State 1%nat
       [RobertaForTokenClassification_forward (VRef 1) [VRef 2]
          [("return_dict", VBool true)]],
     Err oserror) /\
  _instantiate (failing_handler all VNone) [("model_dir", VStr "/ckpt")]
    start =
    (State 1%nat [parse_label_mapping (VStr "/ckpt")], Err oserror) /\
  _instantiate (failing_handler all VNone) [("hidden_size", VInt 8)] start =
    (State 1%nat [VecoConfig [("hidden_size", VInt 8)]], Err oserror) /\
  _instantiate (failing_handler is_from_pretrained VNone)
    [("model_dir", VStr "/ckpt")] start =
    (State 2%nat
       [parse_label_mapping (VStr "/ckpt"); from_pretrained (VStr "/ckpt") []],
     Err oserror).
Proof.
  cbv zeta.
  destruct (@external_errors_propagate_unchanged nat
              (failing_handler (fun _ => true) VNone) start 1%nat
              (Raised (VStr "OSError")))
    as (Hforward & Hparse & Hconfig & _).
  destruct (@external_errors_propagate_unchanged nat
              (failing_handler is_from_pretrained VNone) start 2%nat
              (Raised (VStr "OSError")))
    as (_ & _ & _ & Hload).
  split; [|split; [|split]].
  - apply (Hforward (VRef 1) [VRef 2] []). reflexivity.
  - apply (Hparse [("model_dir", VStr "/ckpt")] (VStr "/ckpt")); reflexivity.
  - apply (Hconfig [("hidden_size", VInt 8)]); reflexivity.
  - apply (Hload [("model_dir", VStr "/ckpt")] (VStr "/ckpt") 1%nat VNone []);
      reflexivity.
Defined.
End Concrete.

(** ** The shape of every keyword set the factory can build *)

Section ResolveShape.
Import Py Ext Spec Aux Runs VecoForTokenClassification.

Lemma invert_inv (x y : value) :
  invert x = Ok y ->
  exists d d', x = VDict d /\ y = VDict d' /\ swap_into d [] = Ok d'.
Proof.
  unfold invert. destruct x; simpl; try discriminate.
  destruct (swap_into items0 []) as [d'|] eqn:E; simpl; [|discriminate].
  intros H. injection H as <-. exists items0, d'. auto.
Qed.

Lemma model_kwargs_entries (n l i : value) :
  (let model_kwargs : kwdict := [] in
   let model_kwargs :=
     if negb (is_none n) then kw_set model_kwargs "num_labels" n
     else model_kwargs in
   let model_kwargs :=
     if negb (is_none l) then kw_set model_kwargs "label2id" l
     else model_kwargs in
   if negb (is_none i) then kw_set model_kwargs "id2label" i
   else model_kwargs) =
  entry "num_labels" n ++ entry "label2id" l ++ entry "id2label" i.
Proof.
  unfold entry. cbv zeta.
  destruct (is_none n), (is_none l), (is_none i); reflexivity.
Qed.

(** Reading a successful resolution backwards, stage by stage. *)
Lemma resolve_inv (kw : kwdict) (parsed : value) (mk : kwdict) :
  resolve_labels kw parsed = Ok mk ->
  let given := kwargs_get kw "label2id" parsed in
  exists inverted label2id counted,
    (if is_none given then Ok VNone else invert given) = Ok inverted /\
    (let id2label := kwargs_get kw "id2label" inverted in
     (if negb (is_none id2label) && is_none given
      then invert id2label else Ok given) = Ok label2id /\
     (if is_none label2id then Ok VNone else len label2id) = Ok counted /\
     mk = entry "num_labels" (kwargs_get kw "num_labels" counted) ++
          entry "label2id" label2id ++ entry "id2label" id2label).
Proof.
  unfold resolve_labels. cbv zeta.
  destruct (if is_none (kwargs_get kw "label2id" parsed)
            then Ok VNone else invert (kwargs_get kw "label2id" parsed))
    as [inverted|] eqn:E1; simpl rbind; [|discriminate].
  destruct (if negb (is_none (kwargs_get kw "id2label" inverted)) &&
               is_none (kwargs_get kw "label2id" parsed)
            then invert (kwargs_get kw "id2label" inverted)
            else Ok (kwargs_get kw "label2id" parsed))
    as [label2id|] eqn:E2; simpl rbind; [|discriminate].
  destruct (if is_none label2id then Ok VNone else len label2id)
    as [counted|] eqn:E3; simpl rbind; [|discriminate].
  intros H. injection H as <-.
  exists inverted, label2id, counted.
  split; [reflexivity | split; [exact E2 | split; [exact E3|]]].
  apply (model_kwargs_entries (kwargs_get kw "num_labels" counted) label2id
           (kwargs_get kw "id2label" inverted)).
Qed.

Lemma entry_keys (k : string) (v : value) :
  Forall (fun kv => fst kv = k /\ is_none (snd kv) = false) (entry k v).
Proof.
  unfold entry. destruct (is_none v) eqn:E; repeat constructor. exact E.
Qed.

Lemma kw_get_entries (n l i : value) :
  let mk := entry "num_labels" n ++ entry "label2id" l ++ entry "id2label" i in
  kw_get mk "num_labels" = (if is_none n then None else Some n) /\
  kw_get mk "label2id" = (if is_none l then None else Some l) /\
  kw_get mk "id2label" = (if is_none i then None else Some i).
Proof.
  unfold entry. cbv zeta.
  destruct (is_none n), (is_none l), (is_none i); repeat split.
Qed.

(** A label mapping that survives the resolution is a dictionary. *)
Lemma resolved_label2id_is_dict (given id2label label2id inverted : value) :
  (if is_none given then Ok VNone else invert given) = Ok inverted ->
  (if negb (is_none id2label) && is_none given
   then invert id2label else Ok given) = Ok label2id ->
  is_none label2id = false ->
  exists d, label2id = VDict d.
Proof.
  intros E1 E2 Hl.
  destruct (is_none given) eqn:Hg.
  - destruct (negb (is_none id2label)); simpl in E2.
    + apply invert_inv in E2. destruct E2 as (d & d' & _ & -> & _).
      exists d'. reflexivity.
    + injection E2 as <-. congruence.
  - rewrite andb_false_r in E2. injection E2 as <-.
    apply invert_inv in E1. destruct E1 as (d & d' & -> & _).
    exists d. reflexivity.
Qed.
End ResolveShape.

(** ** Every run of the factory *)

Section WholeRuns.
Import Py Ext Spec Aux Runs VecoForTokenClassification.

Ltac reply h :=
  match goal with
  | |- context [h ?e ?w] =>
      let w' := fresh "w" in
      let r := fresh "r" in
      let ex := fresh "ex" in
      destruct (h e w) as [w' [r|ex]]; simpl
  end.

Ltac attr :=
  match goal with
  | |- context [getattr ?o ?a] =>
      let v := fresh "v" in
      let ex := fresh "ex" in
      destruct (getattr o a) as [v|ex]; simpl
  end.

(** Without a directory no run reaches the loader. *)
Lemma no_directory_trace (World : Type) (h : handler World)
  (kwargs : kwdict) (st : state World) :
  is_none (kwargs_get kwargs "model_dir" VNone) = true ->
  exists es,
    trace (fst (_instantiate h kwargs st)) = trace st ++ es /\
    Forall (fun e => is_from_pretrained e = false) es.
Proof.
  intros Hnone. unfold _instantiate, kwargs_pop. rewrite Hnone.
  unfold cls, __init__, bind, call, lift, ret.
  reply h; [|eexists; split; [reflexivity | repeat constructor]].
  reply h; [|eexists; split;
               [rewrite <- app_assoc; reflexivity | repeat constructor]].
  attr; [|eexists; split;
            [rewrite <- app_assoc; reflexivity | repeat constructor]].
  reply h; [|eexists; split;
               [rewrite <- !app_assoc; reflexivity | repeat constructor]].
  reply h; eexists; (split;
               [rewrite <- !app_assoc; reflexivity | repeat constructor]).
Qed.

(** A call of the loader tells how the run went. *)
Lemma loader_call_inv (World : Type) (h : handler World)
  (kwargs : kwdict) (st : state World) (dir : value) (mk : kwdict) :
  makes_call (_instantiate h kwargs) st (from_pretrained dir mk) ->
  kw_get kwargs "model_dir" = Some dir /\
  is_none dir = false /\
  exists w1 parsed,
    h (parse_label_mapping dir) (world st) = (w1, Ok parsed) /\
    resolve_labels (kw_remove kwargs "model_dir") parsed = Ok mk.
Proof.
  intros (es & Htrace & Hin).
  destruct (is_none (kwargs_get kwargs "model_dir" VNone)) eqn:Hnone.
  - exfalso.
    destruct (no_directory_trace h kwargs st Hnone) as (es' & Ht & Hall).
    rewrite Ht in Htrace. apply app_inv_head in Htrace. subst es'.
    rewrite Forall_forall in Hall. specialize (Hall _ Hin). discriminate.
  - unfold kwargs_get in Hnone.
    destruct (kw_get kwargs "model_dir") as [d|] eqn:Hdir; [|discriminate].
    rewrite (@instantiate_with_dir _ h _ _ st Hdir Hnone) in Htrace.
    destruct (h (parse_label_mapping d) (world st)) as [w1 [parsed|ex]] eqn:Hp.
    + cbv zeta in Htrace.
      destruct (resolve_labels (kw_remove kwargs "model_dir") parsed)
        as [mk'|ex] eqn:Hr; simpl in Htrace.
      * rewrite <- app_assoc in Htrace. apply app_inv_head in Htrace.
        subst es. simpl in Hin.
        destruct Hin as [H|[H|[]]]; [discriminate|].
        injection H as -> ->.
        split; [reflexivity | split; [exact Hnone|]].
        exists w1, parsed. split; [exact Hp | exact Hr].
      * apply app_inv_head in Htrace. subst es.
        destruct Hin as [H|[]]. discriminate.
    + simpl in Htrace. apply app_inv_head in Htrace. subst es.
      destruct Hin as [H|[]]. discriminate.
Qed.

(** X1.  With a directory the label parser is always the first call, also
    when the caller gives all three overrides; the only call that can follow
    is one call of the loader on the same directory. *)
Theorem directory_run_parses_first
  (World : Type) (h : handler World) (kwargs : kwdict) (model_dir : value)
  (st : state World) :
  kw_get kwargs "model_dir" = Some model_dir ->
  is_none model_dir = false ->
  exists es,
    trace (fst (_instantiate h kwargs st)) =
      trace st ++ parse_label_mapping model_dir :: es /\
    (es = [] \/ exists mk, es = [from_pretrained model_dir mk]).
Proof.
  intros Hdir Hnone.
  rewrite (@instantiate_with_dir _ h _ _ st Hdir Hnone).
  destruct (h (parse_label_mapping model_dir) (world st))
    as [w1 [parsed|ex]]; [|exists []; split; [reflexivity | left; reflexivity]].
  cbv zeta.
  destruct (resolve_labels (kw_remove kwargs "model_dir") parsed) as [mk|ex].
  - exists [from_pretrained model_dir mk]. simpl.
    rewrite <- app_assoc. split; [reflexivity | right; eauto].
  - exists []. split; [reflexivity | left; reflexivity].
Qed.

(** X2.  Whatever the caller passes, the loader is called on the caller's
    directory with keywords among [num_labels], [label2id], [id2label] only,
    none of them [None]: the other keywords of the call are dropped. *)
Theorem loader_receives_only_label_keys
  (World : Type) (h : handler World) (kwargs : kwdict) (st : state World)
  (dir : value) (mk : kwdict) :
  makes_call (_instantiate h kwargs) st (from_pretrained dir mk) ->
  kw_get kwargs "model_dir" = Some dir /\
  Forall (fun kv => In (fst kv) label_keys /\ is_none (snd kv) = false) mk.
Proof.
  intros Hcall.
  destruct (@loader_call_inv _ h kwargs st dir mk Hcall) as (Hdir & _ & w1 & parsed & _ & Hr).
  split; [exact Hdir|].
  destruct (resolve_inv _ _ Hr) as (inv0 & l & c & _ & _ & _ & ->).
  repeat (apply Forall_app; split);
    (eapply Forall_impl; [|apply entry_keys]);
    intros [k v] [Hk Hv]; simpl in *; subst k;
    (split; [unfold label_keys; simpl; tauto | exact Hv]).
Qed.

(** X3.  When the caller leaves [num_labels] out, the loader receives a
    [num_labels] exactly when it receives a [label2id], and then it is the
    number of entries of that [label2id], wherever the mapping came from
    (the call, the directory, or the inversion of [id2label]). *)
Theorem count_follows_label2id
  (World : Type) (h : handler World) (kwargs : kwdict) (st : state World)
  (dir : value) (mk : kwdict) :
  makes_call (_instantiate h kwargs) st (from_pretrained dir mk) ->
  kw_get kwargs "num_labels" = None ->
  match kw_get mk "label2id" with
  | None => kw_get mk "num_labels" = None
  | Some l =>
      exists d, l = VDict d /\
                kw_get mk "num_labels"
                  = Some (VInt (Z.of_nat (List.length d)))
  end.
Proof.
  intros Hcall Hn.
  destruct (@loader_call_inv _ h kwargs st dir mk Hcall) as (_ & _ & w1 & parsed & _ & Hr).
  destruct (resolve_inv _ _ Hr) as (inv0 & l & c & E1 & E2 & E3 & ->).
  rewrite !kwargs_get_after_pop in * by discriminate.
  assert (kwargs_get kwargs "num_labels" c = c) as ->
    by (unfold kwargs_get; rewrite Hn; reflexivity).
  destruct (kw_get_entries c l (kwargs_get kwargs "id2label" inv0))
    as (Hgn & Hgl & _).
  cbv zeta in Hgn, Hgl. rewrite Hgl, Hgn.
  destruct (is_none l) eqn:Hl.
  - injection E3 as <-. reflexivity.
  - destruct (resolved_label2id_is_dict _ _ E1 E2 Hl) as (d & ->).
    simpl in E3. injection E3 as <-. exists d. split; reflexivity.
Qed.

(** X4.  The loader never receives an [id2label] without a [label2id]: when
    only [id2label] is known, [label2id] is derived and is a dictionary. *)
Theorem id2label_never_alone
  (World : Type) (h : handler World) (kwargs : kwdict) (st : state World)
  (dir : value) (mk : kwdict) (id2label : value) :
  makes_call (_instantiate h kwargs) st (from_pretrained dir mk) ->
  kw_get mk "id2label" = Some id2label ->
  exists d, kw_get mk "label2id" = Some (VDict d).
Proof.
  intros Hcall Hi.
  destruct (@loader_call_inv _ h kwargs st dir mk Hcall) as (_ & _ & w1 & parsed & _ & Hr).
  destruct (resolve_inv _ _ Hr) as (inv0 & l & c & E1 & E2 & E3 & ->).
  match type of Hi with
  | kw_get (entry _ ?n ++ entry _ _ ++ entry _ ?i) _ = _ =>
      destruct (kw_get_entries n l i) as (_ & Hgl & Hgi)
  end.
  cbv zeta in Hgl, Hgi. rewrite Hgi in Hi. rewrite Hgl.
  pose proof (resolved_label2id_is_dict _ _ E1 E2) as Hdict.
  match type of Hi with
  | (if is_none ?i then _ else _) = _ => destruct (is_none i) eqn:Hni
  end; [discriminate|].
  assert (is_none l = false) as Hl.
  { destruct (is_none (kwargs_get (kw_remove kwargs "model_dir")
                         "label2id" parsed)) eqn:Hg.
    - simpl in E2.
      apply invert_inv in E2. destruct E2 as (d & d' & _ & -> & _).
      reflexivity.
    - simpl in E2. injection E2 as <-. exact Hg. }
  rewrite Hl. destruct (Hdict Hl) as (d & ->).
  exists d. reflexivity.
Qed.

(** X5.  Overrides are not validated.  A [num_labels] or [id2label] given by
    the caller reaches the loader as it is, or is left out when it is
    [None]; a [label2id] given by the caller and not [None] reaches the
    loader as it is. *)
Theorem overrides_reach_loader_verbatim
  (World : Type) (h : handler World) (kwargs : kwdict) (st : state World)
  (dir : value) (mk : kwdict) :
  makes_call (_instantiate h kwargs) st (from_pretrained dir mk) ->
  (forall n, kw_get kwargs "num_labels" = Some n ->
     kw_get mk "num_labels" = if is_none n then None else Some n) /\
  (forall i, kw_get kwargs "id2label" = Some i ->
     kw_get mk "id2label" = if is_none i then None else Some i) /\
  (forall l, kw_get kwargs "label2id" = Some l -> is_none l = false ->
     kw_get mk "label2id" = Some l).
Proof.
  intros Hcall.
  destruct (@loader_call_inv _ h kwargs st dir mk Hcall) as (_ & _ & w1 & parsed & _ & Hr).
  destruct (resolve_inv _ _ Hr) as (inv0 & l & c & E1 & E2 & E3 & ->).
  rewrite !kwargs_get_after_pop in * by discriminate.
  destruct (kw_get_entries (kwargs_get kwargs "num_labels" c) l
              (kwargs_get kwargs "id2label" inv0)) as (Hgn & Hgl & Hgi).
  cbv zeta in Hgn, Hgl, Hgi.
  split; [|split].
  - intros n Hn. rewrite Hgn. unfold kwargs_get. rewrite Hn. reflexivity.
  - intros i Hi. rewrite Hgi. unfold kwargs_get. rewrite Hi. reflexivity.
  - intros l' Hl' Hnl. rewrite Hgl.
    assert (kwargs_get kwargs "label2id" parsed = l') as Hg
      by (unfold kwargs_get; rewrite Hl'; reflexivity).
    rewrite Hg, Hnl, andb_false_r in E2. injection E2 as E2. subst l.
    rewrite Hnl. reflexivity.
Qed.
End WholeRuns.

(** ** Where the label mapping comes from, and when it cannot be used *)

Section MappingSources.
Import Py Ext Spec Aux Runs VecoForTokenClassification.

Ltac open_dir Hdir Hnone Hparse :=
  match type of Hparse with
  | ?h _ (world ?st) = _ =>
      rewrite (@instantiate_with_dir _ h _ _ st Hdir Hnone), Hparse; cbv zeta
  end.

Lemma resolve_parsed (kw : kwdict) (d d' : dict) :
  kw_get kw "label2id" = None ->
  kw_get kw "id2label" = None ->
  kw_get kw "num_labels" = None ->
  invert (VDict d) = Ok (VDict d') ->
  resolve_labels kw (VDict d) =
    Ok [("num_labels", VInt (Z.of_nat (List.length d)));
        ("label2id", VDict d); ("id2label", VDict d')].
Proof.
  intros Hl Hi Hn Hinv. unfold resolve_labels, kwargs_get.
  rewrite Hl, Hi, Hn. cbv zeta. simpl is_none. cbv iota.
  rewrite Hinv. reflexivity.
Qed.

Lemma resolve_none_given (kw : kwdict) (parsed : value) :
  kw_get kw "label2id" = Some VNone ->
  kw_get kw "id2label" = None ->
  kw_get kw "num_labels" = None ->
  resolve_labels kw parsed = Ok [].
Proof.
  intros Hl Hi Hn. unfold resolve_labels, kwargs_get.
  rewrite Hl, Hi, Hn. reflexivity.
Qed.

Lemma resolve_bad_mapping (kw : kwdict) (parsed : value) (e : exn) :
  is_none (kwargs_get kw "label2id" parsed) = false ->
  invert (kwargs_get kw "label2id" parsed) = Err e ->
  resolve_labels kw parsed = Err e.
Proof.
  intros Hn Hinv. unfold resolve_labels. cbv zeta.
  rewrite Hn, Hinv. reflexivity.
Qed.

Lemma swap_into_unhashable (pairs : dict) : forall acc,
  ~ values_hashable pairs ->
  swap_into pairs acc = Err (TypeError "unhashable type").
Proof.
  induction pairs as [|[a b] rest IH]; intros acc Hbad; simpl.
  - exfalso. apply Hbad. constructor.
  - unfold dict_setitem. destruct (hash_key b) as [hk|] eqn:Hb; simpl.
    + apply IH. intros Hrest. apply Hbad. constructor; [|exact Hrest].
      unfold hashable. simpl. congruence.
    + reflexivity.
Qed.

Lemma same_key_same_entry {K V C : Type} (canon : K -> C)
  (d : list (K * V)) (k1 k2 : K) (v1 v2 : V) :
  NoDup (ckeys canon d) -> In (k1, v1) d -> In (k2, v2) d ->
  canon k1 = canon k2 -> (k1, v1) = (k2, v2).
Proof.
  induction d as [|[k v] rest IH]; simpl; intros ND H1 H2 Hc.
  - contradiction.
  - inversion ND as [|x l Hnot ND']; subst.
    assert (forall k' v', In (k', v') rest -> In (canon k') (ckeys canon rest))
      as Hkeys.
    { intros k' v' Hin.
      apply (in_map (fun kv => canon (fst kv)) rest (k', v') Hin). }
    destruct H1 as [E1|H1], H2 as [E2|H2].
    + congruence.
    + exfalso. injection E1 as -> ->. apply Hnot. rewrite Hc.
      exact (Hkeys _ _ H2).
    + exfalso. injection E2 as -> ->. apply Hnot. rewrite <- Hc.
      exact (Hkeys _ _ H1).
    + exact (IH ND' H1 H2 Hc).
Qed.

(** X6.  Without overrides, a mapping found in the directory is what the
    loader receives, with its entry count as [num_labels] and with the
    [id2label] obtained by turning it around. *)
Theorem parsed_mapping_is_used
  (World : Type) (h : handler World) (kwargs : kwdict) (model_dir : value)
  (found : dict) (st : state World) (w1 : World) :
  kw_get kwargs "model_dir" = Some model_dir ->
  is_none model_dir = false ->
  kw_get kwargs "label2id" = None ->
  kw_get kwargs "id2label" = None ->
  kw_get kwargs "num_labels" = None ->
  values_hashable found ->
  h (parse_label_mapping model_dir) (world st) = (w1, Ok (VDict found)) ->
  exists id2label : dict,
    _instantiate h kwargs st =
      after h
        (from_pretrained model_dir
           [("num_labels", VInt (Z.of_nat (List.length found)));
            ("label2id", VDict found);
            ("id2label", VDict id2label)])
        (State w1 (trace st ++ [parse_label_mapping model_dir])) /\
    maps_back found id2label /\
    (NoDup (dict_values found) -> exact_inverse found id2label).
Proof.
  intros Hdir Hnone Hl Hi Hn Hh Hparse.
  destruct (invert_dict Hh) as (d' & Hinv & Hback & _ & _ & Hexact).
  exists d'. split; [|split].
  - open_dir Hdir Hnone Hparse.
    rewrite (@resolve_parsed _ found d');
      try rewrite kw_get_after_pop by discriminate; auto.
  - exact Hback.
  - intros ND. rewrite (Hexact ND). apply exact_inverse_swap.
Qed.

(** X7.  [label2id=None] in the call is not the same as leaving it out: the
    mapping found in the directory is then ignored, and without the other
    two overrides the loader receives no label keyword at all. *)
Theorem explicit_none_discards_parsed
  (World : Type) (h : handler World) (kwargs : kwdict) (model_dir : value)
  (st : state World) (w1 : World) (parsed : value) :
  kw_get kwargs "model_dir" = Some model_dir ->
  is_none model_dir = false ->
  kw_get kwargs "label2id" = Some VNone ->
  kw_get kwargs "id2label" = None ->
  kw_get kwargs "num_labels" = None ->
  h (parse_label_mapping model_dir) (world st) = (w1, Ok parsed) ->
  _instantiate h kwargs st =
    after h (from_pretrained model_dir [])
      (State w1 (trace st ++ [parse_label_mapping model_dir])).
Proof.
  intros Hdir Hnone Hl Hi Hn Hparse.
  open_dir Hdir Hnone Hparse.
  rewrite resolve_none_given;
    try rewrite kw_get_after_pop by discriminate; auto.
Qed.


(** X9.  A label mapping with an unhashable id makes the factory raise
    [TypeError] right after the parse, before the loader is called, whatever
    else the caller gives. *)
Theorem unhashable_id_raises
  (World : Type) (h : handler World) (kwargs : kwdict) (model_dir : value)
  (label2id : dict) (st : state World) (w1 : World) (parsed : value) :
  kw_get kwargs "model_dir" = Some model_dir ->
  is_none model_dir = false ->
  h (parse_label_mapping model_dir) (world st) = (w1, Ok parsed) ->
  kwargs_get kwargs "label2id" parsed = VDict label2id ->
  ~ values_hashable label2id ->
  _instantiate h kwargs st =
    (State w1 (trace st ++ [parse_label_mapping model_dir]),
     Err (TypeError "unhashable type")).
Proof.
  intros Hdir Hnone Hparse Hl Hbad.
  open_dir Hdir Hnone Hparse.
  rewrite (@resolve_bad_mapping _ parsed (TypeError "unhashable type"));
    rewrite ?kwargs_get_after_pop by discriminate; rewrite ?Hl; auto.
  unfold invert. simpl. rewrite swap_into_unhashable by exact Hbad.
  reflexivity.
Qed.

(** X10.  The [id2label] derived from a dictionary never gives one label to
    two ids, so turning it around and back returns it unchanged. *)
Theorem derived_id2label_is_bijective (label2id id2label : dict) :
  is_dict label2id ->
  invert (VDict label2id) = Ok (VDict id2label) ->
  is_dict id2label /\
  NoDup (dict_values id2label) /\
  exists back : dict,
    invert (VDict id2label) = Ok (VDict back) /\
    invert (VDict back) = Ok (VDict id2label).
Proof.
  intros Hd Hinv.
  apply invert_inv in Hinv.
  destruct Hinv as (d & d' & Ed & Ed' & Hswap).
  injection Ed as <-. injection Ed' as <-.
  assert (is_dict id2label) as Hd'.
  { apply (@swap_into_is_dict label2id [] id2label); [|exact Hswap].
    split; constructor. }
  assert (forall a b, In (a, b) id2label ->
            exists id, In (b, id) label2id /\ hash_key id = hash_key a)
    as Hfrom.
  { intros a b Hin.
    pose proof (In_lookup hash_key opt_hkey_eq_dec _ _ _ (proj2 Hd') Hin)
      as Hget.
    change (dict_get id2label (hash_key a) = Some b) in Hget.
    rewrite (swap_into_lookup label2id [] (hash_key a) Hswap) in Hget.
    destruct (last_label label2id (hash_key a)) as [l|] eqn:El;
      [|discriminate].
    injection Hget as ->. exact (last_label_In _ _ El). }
  assert (NoDup (dict_values id2label)) as NDv.
  { unfold dict_values. apply NoDup_map_NoDup_ForallPairs.
    - intros [a1 b1] [a2 b2] H1 H2 Hb. simpl in Hb.
      destruct (Hfrom _ _ H1) as (id1 & Hin1 & Hid1).
      destruct (Hfrom _ _ H2) as (id2 & Hin2 & Hid2).
      pose proof (same_key_same_entry hash_key _ _ _ _ _
                    (proj2 Hd) Hin1 Hin2 Hb) as E.
      injection E as _ Eid. subst id2.
      apply (same_key_same_entry hash_key _ _ _ _ _ (proj2 Hd') H1 H2).
      congruence.
    - apply (NoDup_map_inv (fun kv => hash_key (fst kv))).
      exact (proj2 Hd'). }
  assert (values_hashable id2label) as Hvh.
  { unfold values_hashable. rewrite Forall_forall. intros [a b] Hin.
    destruct (Hfrom _ _ Hin) as (id & Hin' & _).
    pose proof (proj1 Hd) as Hk. rewrite Forall_forall in Hk.
    exact (Hk _ Hin'). }
  split; [exact Hd' | split; [exact NDv|]].
  exists (map swap id2label). split.
  - unfold invert. simpl. rewrite swap_into_injective; auto.
  - unfold invert. simpl. rewrite swap_into_injective.
    + simpl. rewrite map_swap_swap. reflexivity.
    + apply values_hashable_swap. exact Hd'.
    + simpl. rewrite dict_values_swap. exact (proj2 Hd').
Qed.
End MappingSources.

(** ** Failures and indifference of construction and inference *)

Section EdgeCases.
Import Py Ext Spec Aux Runs VecoForTokenClassification.

Lemma store_twice {K V C : Type} (canon : K -> C)
  (dec : forall a b : C, {a = b} + {a <> b}) (d : list (K * V)) k v v' :
  store canon dec (store canon dec d k v) k v' = store canon dec d k v'.
Proof.
  induction d as [|[k0 v0] rest IH]; simpl.
  - destruct (dec (canon k) (canon k)); congruence.
  - destruct (dec (canon k0) (canon k)) as [E|N]; simpl.
    + destruct (dec (canon k0) (canon k)); congruence.
    + destruct (dec (canon k0) (canon k)); [contradiction|].
      rewrite IH. reflexivity.
Qed.

Lemma lookup_app_none {K V C : Type} (canon : K -> C)
  (dec : forall a b : C, {a = b} + {a <> b}) (a b : list (K * V)) c :
  lookup canon dec a c = None ->
  lookup canon dec (a ++ b) c = lookup canon dec b c.
Proof.
  induction a as [|[k v] rest IH]; simpl; intros H.
  - reflexivity.
  - destruct (dec (canon k) c); [discriminate | exact (IH H)].
Qed.

Lemma remove_absent {K V C : Type} (canon : K -> C)
  (dec : forall a b : C, {a = b} + {a <> b}) (d : list (K * V)) c :
  lookup canon dec d c = None -> remove canon dec d c = d.
Proof.
  induction d as [|[k v] rest IH]; simpl; intros H.
  - reflexivity.
  - destruct (dec (canon k) c); [discriminate|].
    rewrite (IH H). reflexivity.
Qed.

Lemma remove_middle {K V C : Type} (canon : K -> C)
  (dec : forall a b : C, {a = b} + {a <> b}) (a b : list (K * V)) k v :
  lookup canon dec a (canon k) = None ->
  remove canon dec (a ++ (k, v) :: b) (canon k) = a ++ b.
Proof.
  induction a as [|[k0 v0] rest IH]; simpl; intros H.
  - destruct (dec (canon k) (canon k)); congruence.
  - destruct (dec (canon k0) (canon k)); [discriminate|].
    rewrite (IH H). reflexivity.
Qed.

(** X11.  When the parent's result lacks one of the four fields, [forward]
    raises the error of the first missing one (in the order loss, logits,
    hidden states, attentions) after the parent has run: the parent's
    effects stay, no output object is built. *)
Theorem forward_missing_field_raises
  (World : Type) (h : handler World) (self : value) (args : list value)
  (kwargs : kwdict) (st : state World) (w' : World) (outputs : value)
  (e : exn) :
  let call_ := RobertaForTokenClassification_forward self args
                 (kw_set kwargs "return_dict" (VBool true)) in
  h call_ (world st) = (w', Ok outputs) ->
  (getattr outputs "loss" = Err e \/
   (exists loss, getattr outputs "loss" = Ok loss) /\
   (getattr outputs "logits" = Err e \/
    (exists logits, getattr outputs "logits" = Ok logits) /\
    (getattr outputs "hidden_states" = Err e \/
     (exists hs, getattr outputs "hidden_states" = Ok hs) /\
     getattr outputs "attentions" = Err e))) ->
  forward h self args kwargs st = (State w' (trace st ++ [call_]), Err e).
Proof.
  intros call_ Hcall Hmiss. subst call_.
  unfold forward, bind, call, lift, ret. rewrite Hcall.
  destruct Hmiss as [H1|[(v1 & H1) Hmiss]]; rewrite H1; [reflexivity|].
  destruct Hmiss as [H2|[(v2 & H2) Hmiss]]; rewrite H2; [reflexivity|].
  destruct Hmiss as [H3|[(v3 & H3) H4]]; rewrite H3; [reflexivity|].
  rewrite H4. reflexivity.
Qed.

(** X12.  Construction stops at the first failure: a configuration without
    [name_or_path] raises before any ancestor is initialised; when the
    generic wrapper's initialiser raises, the task model's initialiser is
    never called; when the task model's initialiser raises, its error is the
    result.  In each case the world is as the last call left it. *)
Theorem construction_stops_at_first_failure
  (World : Type) (h : handler World) (self config : value)
  (kwargs : kwdict) (st : state World) (e : exn) :
  (getattr config "name_or_path" = Err e ->
   __init__ h self config kwargs st = (st, Err e)) /\
  (forall name w1,
      getattr config "name_or_path" = Ok name ->
      h (TorchModel_init self name kwargs) (world st) = (w1, Err e) ->
      __init__ h self config kwargs st =
        (State w1 (trace st ++ [TorchModel_init self name kwargs]), Err e)) /\
  (forall name w1 r1 w2,
      getattr config "name_or_path" = Ok name ->
      h (TorchModel_init self name kwargs) (world st) = (w1, Ok r1) ->
      h (RobertaForTokenClassification_init self config) w1 = (w2, Err e) ->
      __init__ h self config kwargs st =
        (State w2
           (trace st ++
              [TorchModel_init self name kwargs;
               RobertaForTokenClassification_init self config]),
         Err e)).
Proof.
  split; [|split].
  - intros Hname. unfold __init__, bind, lift. rewrite Hname. reflexivity.
  - intros name w1 Hname H1.
    unfold __init__, bind, call, lift. rewrite Hname, H1. reflexivity.
  - intros name w1 r1 w2 Hname H1 H2.
    unfold __init__, bind, call, lift. rewrite Hname, H1. simpl.
    rewrite H2, <- app_assoc. reflexivity.
Qed.

(** X13.  The caller's [return_dict] has no influence at all: setting it to
    any value in the caller's keywords (replacing the value in place when the
    key is there, adding it last when it is not) leaves the run
    unchanged. *)
Theorem forward_ignores_caller_return_dict
  (World : Type) (h : handler World) (self : value) (args : list value)
  (kwargs : kwdict) (v : value) (st : state World) :
  forward h self args (kw_set kwargs "return_dict" v) st =
  forward h self args kwargs st.
Proof.
  unfold forward. cbv zeta. unfold kw_set. rewrite store_twice. reflexivity.
Qed.

(** X14.  [model_dir=None] is the same as no [model_dir]: wherever the
    keyword stands in the call, the run is the run of the call without
    it. *)
Theorem model_dir_none_is_absent
  (World : Type) (h : handler World) (before behind : kwdict)
  (st : state World) :
  kw_get before "model_dir" = None ->
  kw_get behind "model_dir" = None ->
  _instantiate h (before ++ ("model_dir", VNone) :: behind) st =
  _instantiate h (before ++ behind) st.
Proof.
  intros Ha Hb.
  assert (kw_get (before ++ behind) "model_dir" = None) as Hab.
  { unfold kw_get in *. rewrite lookup_app_none by exact Ha. exact Hb. }
  assert (kwargs_get (before ++ ("model_dir", VNone) :: behind)
            "model_dir" VNone = VNone) as H1.
  { unfold kwargs_get, kw_get in *. rewrite lookup_app_none by exact Ha.
    simpl. destruct (string_dec "model_dir" "model_dir"); congruence. }
  assert (kwargs_get (before ++ behind) "model_dir" VNone = VNone) as H2.
  { unfold kwargs_get. rewrite Hab. reflexivity. }
  assert (kw_remove (before ++ ("model_dir", VNone) :: behind) "model_dir"
          = before ++ behind) as H3.
  { apply (remove_middle (fun s : string => s) string_dec before behind
             "model_dir" VNone Ha). }
  assert (kw_remove (before ++ behind) "model_dir" = before ++ behind) as H4.
  { apply remove_absent. exact Hab. }
  unfold _instantiate, kwargs_pop. rewrite H1, H2, H3, H4. reflexivity.
Qed.
End EdgeCases.

(** ** Concrete runs for the properties of whole runs *)

Section ConcreteRuns.
Import Py Ext Spec Aux Runs VecoForTokenClassification.

Ltac loaded :=
  eexists; split; [reflexivity | right; left; reflexivity].

(** X1 with all three overrides given: the parser is still called. *)
Lemma directory_run_witness :
  exists es,
    trace (fst (_instantiate (sample_handler VNone)
                  [("model_dir", VStr "/ckpt");
                   ("label2id", VDict ner_label2id);
                   ("id2label", VDict ner_id2label);
                   ("num_labels", VInt 3)] start)) =
      [] ++ parse_label_mapping (VStr "/ckpt") :: es /\
    (es = [] \/ exists mk, es = [from_pretrained (VStr "/ckpt") mk]).
Proof.
  apply (@directory_run_parses_first nat (sample_handler VNone)
           [("model_dir", VStr "/ckpt"); ("label2id", VDict ner_label2id);
            ("id2label", VDict ner_id2label); ("num_labels", VInt 3)]
           (VStr "/ckpt") start); reflexivity.
Defined.

(** X2: [hidden_size] does not reach the loader. *)
Lemma only_label_keys_witness :
  let mk := [("num_labels", VInt 3); ("label2id", VDict ner_label2id);
             ("id2label", VDict ner_id2label)] in
  Forall (fun kv => In (fst kv) label_keys /\ is_none (snd kv) = false) mk.
Proof.
  cbv zeta.
  apply (@loader_receives_only_label_keys nat (sample_handler VNone)
           [("hidden_size", VInt 8); ("model_dir", VStr "/ckpt");
            ("label2id", VDict ner_label2id)]
           start (VStr "/ckpt")).
  loaded.
Defined.

(** X3: [id2label] alone; the count is that of the derived [label2id]. *)
Lemma count_follows_witness :
  let mk := [("num_labels", VInt 3); ("label2id", VDict ner_label2id);
             ("id2label", VDict ner_id2label)] in
  match kw_get mk "label2id" with
  | None => kw_get mk "num_labels" = None
  | Some l =>
      exists d, l = VDict d /\
                kw_get mk "num_labels"
                  = Some (VInt (Z.of_nat (List.length d)))
  end.
Proof.
  cbv zeta.
  apply (@count_follows_label2id nat (sample_handler VNone)
           [("model_dir", VStr "/ckpt"); ("id2label", VDict ner_id2label)]
           start (VStr "/ckpt")); [loaded | reflexivity].
Defined.

(** X4: [id2label] alone. *)
Lemma id2label_never_alone_witness :
  let mk := [("num_labels", VInt 3); ("label2id", VDict ner_label2id);
             ("id2label", VDict ner_id2label)] in
  exists d, kw_get mk "label2id" = Some (VDict d).
Proof.
  cbv zeta.
  apply (@id2label_never_alone nat (sample_handler VNone)
           [("model_dir", VStr "/ckpt"); ("id2label", VDict ner_id2label)]
           start (VStr "/ckpt") _ (VDict ner_id2label));
    [loaded | reflexivity].
Defined.

(** X5: a string as [num_labels] and [id2label=None]. *)
Lemma overrides_verbatim_witness :
  let mk := [("num_labels", VStr "five"); ("label2id", VDict ner_label2id)] in
  kw_get mk "num_labels" = Some (VStr "five") /\
  kw_get mk "id2label" = None /\
  kw_get mk "label2id" = Some (VDict ner_label2id).
Proof.
  cbv zeta.
  destruct (@overrides_reach_loader_verbatim nat (sample_handler VNone)
              [("model_dir", VStr "/ckpt"); ("label2id", VDict ner_label2id);
               ("id2label", VNone); ("num_labels", VStr "five")]
              start (VStr "/ckpt")
              [("num_labels", VStr "five"); ("label2id", VDict ner_label2id)])
    as (Hn & Hi & Hl); [loaded|].
  split; [|split].
  - apply (Hn (VStr "five")). reflexivity.
  - apply (Hi VNone). reflexivity.
  - apply (Hl (VDict ner_label2id)); reflexivity.
Defined.

(** X6: the directory holds the NER mapping. *)
Lemma parsed_mapping_witness :
  exists id2label : dict,
    _instantiate (sample_handler (VDict ner_label2id))
      [("model_dir", VStr "/ckpt")] start =
    after (sample_handler (VDict ner_label2id))
      (from_pretrained (VStr "/ckpt")
         [("num_labels", VInt 3); ("label2id", VDict ner_label2id);
          ("id2label", VDict id2label)])
      (State 1%nat [parse_label_mapping (VStr "/ckpt")]) /\
    exact_inverse ner_label2id id2label.
Proof.
  destruct (@parsed_mapping_is_used nat (sample_handler (VDict ner_label2id))
              [("model_dir", VStr "/ckpt")] (VStr "/ckpt") ner_label2id
              start 1%nat)
    as (id2label & Hrun & _ & Hexact); try reflexivity.
  - repeat constructor; cbv; intuition discriminate.
  - exists id2label. split; [exact Hrun|]. apply Hexact.
    repeat constructor; cbv; intuition discriminate.
Defined.

(** X7: the directory holds the NER mapping, the caller says
    [label2id=None]. *)
Lemma explicit_none_witness :
  _instantiate (sample_handler (VDict ner_label2id))
    [("model_dir", VStr "/ckpt"); ("label2id", VNone)] start =
  after (sample_handler (VDict ner_label2id))
    (from_pretrained (VStr "/ckpt") [])
    (State 1%nat [parse_label_mapping (VStr "/ckpt")]).
Proof.
  apply (@explicit_none_discards_parsed nat
           (sample_handler (VDict ner_label2id))
           [("model_dir", VStr "/ckpt"); ("label2id", VNone)]
           (VStr "/ckpt") start 1%nat (VDict ner_label2id)); reflexivity.
Defined.


(** X9: the id of "O" is itself a dictionary. *)
Lemma unhashable_id_witness :
  _instantiate (sample_handler VNone)
    [("model_dir", VStr "/ckpt");
     ("label2id", VDict [(VStr "O", VDict [])])] start =
  (State 1%nat [parse_label_mapping (VStr "/ckpt")],
   Err (TypeError "unhashable type")).
Proof.
  apply (@unhashable_id_raises nat (sample_handler VNone)
           [("model_dir", VStr "/ckpt");
            ("label2id", VDict [(VStr "O", VDict [])])]
           (VStr "/ckpt") [(VStr "O", VDict [])] start 1%nat VNone);
    try reflexivity.
  intros H. inversion H as [|x l Hx Hl]; subst. apply Hx. reflexivity.
Defined.

(** X10 on the mapping where "O" and "PAD" share id 0. *)
Lemma derived_bijective_witness :
  let id2label := [(VInt 0, VStr "PAD"); (VInt 1, VStr "B-PER")] in
  NoDup (dict_values id2label) /\
  exists back : dict,
    invert (VDict id2label) = Ok (VDict back) /\
    invert (VDict back) = Ok (VDict id2label).
Proof.
  cbv zeta.
  destruct (@derived_id2label_is_bijective clashing_label2id
              [(VInt 0, VStr "PAD"); (VInt 1, VStr "B-PER")])
    as (_ & ND & Hback).
  - split; repeat constructor; cbv; intuition discriminate.
  - reflexivity.
  - split; [exact ND | exact Hback].
Defined.

(** X11: the parent's result has no hidden states. *)
Lemma missing_field_witness :
  forward partial_handler (VRef 1) [VRef 2] [] start =
  (State 1%nat
     [RobertaForTokenClassification_forward (VRef 1) [VRef 2]
        [("return_dict", VBool true)]],
   Err (AttributeError "hidden_states")).
Proof.
  apply (@forward_missing_field_raises nat partial_handler (VRef 1) [VRef 2]
           [] start 1%nat partial_outputs (AttributeError "hidden_states"));
    [reflexivity|].
  right. split; [exists VNone; reflexivity|].
  right. split; [exists (VRef 40); reflexivity|].
  left. reflexivity.
Defined.

(** X12: no identifier; the wrapper fails; the task model fails. *)
Lemma construction_failure_witness :
  let config := VObj "VecoConfig" [("name_or_path", VStr "/ckpt")] in
  let oserror := Raised (VStr "OSError") in
  __init__ (sample_handler VNone) (VRef 9) (VObj "VecoConfig" []) [] start =
    (start, Err (AttributeError "name_or_path")) /\
  __init__ (failing_handler is_torch_init VNone) (VRef 9) config [] start =
    (State 1%nat [TorchModel_init (VRef 9) (VStr "/ckpt") []], Err oserror) /\
  __init__ (failing_handler is_task_init VNone) (VRef 9) config [] start =
    (State 2%nat
       [TorchModel_init (VRef 9) (VStr "/ckpt") [];
        RobertaForTokenClassification_init (VRef 9) config],
     Err oserror).
Proof.
  cbv zeta. split; [|split].
  - apply (@construction_stops_at_first_failure nat (sample_handler VNone)
             (VRef 9) (VObj "VecoConfig" []) [] start
             (AttributeError "name_or_path")).
    reflexivity.
  - apply (@construction_stops_at_first_failure nat
             (failing_handler is_torch_init VNone) (VRef 9)
             (VObj "VecoConfig" [("name_or_path", VStr "/ckpt")]) [] start
             (Raised (VStr "OSError"))); reflexivity.
  - apply (proj2 (proj2 (@construction_stops_at_first_failure nat
             (failing_handler is_task_init VNone) (VRef 9)
             (VObj "VecoConfig" [("name_or_path", VStr "/ckpt")]) [] start
             (Raised (VStr "OSError"))))
             (VStr "/ckpt") 1%nat VNone 2%nat); reflexivity.
Defined.

(** X14: [model_dir=None] between two configuration keywords. *)
Lemma model_dir_none_witness :
  _instantiate (sample_handler VNone)
    [("hidden_size", VInt 8); ("model_dir", VNone); ("num_labels", VInt 3)]
    start =
  _instantiate (sample_handler VNone)
    [("hidden_size", VInt 8); ("num_labels", VInt 3)] start.
Proof.
  apply (@model_dir_none_is_absent nat (sample_handler VNone)
           [("hidden_size", VInt 8)] [("num_labels", VInt 3)] start);
    reflexivity.
Defined.
End ConcreteRuns.
